(** * Todo backend: ownership-scoped task CRUD and the auth contract

    A shallow embedding of the FastAPI backend under [backend/app]:
    - [app/models]        the [User] and [Task] rows and the request bodies,
    - [app/auth.py]       password hashing and bearer-token verification,
    - [app/routes/auth.py]  register and login,
    - [app/routes/tasks.py] list / create / get / update / delete.

    The relational store is a pair of row lists with the constraints the
    models declare (primary keys, the unique e-mail index, the foreign key
    of a task to its owner).  A handler is a function of the committed
    database state; the values the code draws from its environment
    (each [uuid4()], each reading of [datetime.utcnow()], the bcrypt
    salt, the order the database gives to rows with equal sort keys) are
    explicit arguments.  The two libraries the code calls into, passlib's
    [CryptContext] and python-jose's [jwt], are interfaces whose
    implementations are supplied by the caller. *)

From Stdlib Require Import ZArith String Ascii List Lia.
From stdpp Require Import base list sorting strings.

Open Scope Z_scope.
Open Scope string_scope.
Open Scope list_scope.

(** ** Exceptions and results *)

(** The exceptions the modelled code raises or lets through. An
    [HTTPException] carries what FastAPI serialises: status code, detail
    and extra headers. *)
Inductive exn : Type :=
| HTTPException (status_code : Z) (detail : string) (headers : list (string * string))
| RequestValidationError (loc : string)
| IntegrityError (constraint : string)
| DataError (msg : string)
| JWTError (msg : string)
| ValueError (msg : string)
| UnknownHashError.

Inductive result (A : Type) : Type :=
| Return (a : A)
| Raise (e : exn).
Arguments Return {A} a.
Arguments Raise {A} e.

Definition HTTP_401_UNAUTHORIZED : Z := 401.
Definition HTTP_403_FORBIDDEN : Z := 403.
Definition HTTP_404_NOT_FOUND : Z := 404.
Definition HTTP_409_CONFLICT : Z := 409.

(** ** Identifiers, timestamps, strings *)

(** A UUID is its 128-bit integer value; a [datetime] is a count of
    seconds on the UTC time line. *)
Definition UUID : Type := N.
Definition datetime : Type := Z.

(** [str.lower()] on the ASCII range, and the substring test [pat in s]. *)
Definition lower_ascii (c : ascii) : ascii :=
  let n := nat_of_ascii c in
  if (Nat.leb 65 n && Nat.leb n 90)%bool then ascii_of_nat (n + 32) else c.

Fixpoint lower (s : string) : string :=
  match s with
  | EmptyString => EmptyString
  | String c s' => String (lower_ascii c) (lower s')
  end.

Fixpoint contains (pat s : string) : bool :=
  (String.prefix pat s ||
   match s with
   | EmptyString => false
   | String _ s' => contains pat s'
   end)%bool.

(** ** app/models *)

Module User.
Record t : Type := mk {
  id : UUID;
  email : string;
  password_hash : string;
  created_at : datetime;
  updated_at : datetime
}.
End User.

Module Task.
Record t : Type := mk {
  id : UUID;
  title : string;
  description : option string;
  completed : bool;
  user_id : UUID;
  created_at : datetime;
  updated_at : datetime
}.
End Task.

(** *** app/models/requests.py *)

Module RegisterRequest.
Record t : Type := mk { email : string; password : string }.
End RegisterRequest.

Module LoginRequest.
Record t : Type := mk { email : string; password : string }.
End LoginRequest.

(** A member of a JSON request body as the client sent it: left out,
    the literal [null], or a value. *)
Inductive field (A : Type) : Type :=
| Absent
| Null
| Value (a : A).
Arguments Absent {A}.
Arguments Null {A}.
Arguments Value {A} a.

(** An optional model field with [default=None]: a missing member and an
    explicit [null] both validate to [None]. *)
Definition optional {A : Type} (f : field A) : option A :=
  match f with
  | Absent | Null => None
  | Value a => Some a
  end.

Definition length_between (lo hi : nat) (s : string) : bool :=
  (Nat.leb lo (String.length s) && Nat.leb (String.length s) hi)%bool.

(** The body of [POST /api/tasks] as received. [others] are the members
    the model does not declare (a client may send ["user_id"]); validation
    drops them. *)
Module TaskCreateBody.
Record t : Type := mk {
  title : field string;
  description : field string;
  completed : field bool;
  others : list (string * string)
}.
End TaskCreateBody.

Module TaskCreateRequest.
Record t : Type := mk {
  title : string;
  description : option string;
  completed : bool
}.

(** [title] is required with 1..200 characters, [description] defaults to
    [None], [completed] to [False] (a [null] is not a [bool]). *)
Definition model_validate (b : TaskCreateBody.t) : result t :=
  match TaskCreateBody.title b with
  | Value s =>
      if length_between 1 200 s then
        match TaskCreateBody.completed b with
        | Null => Raise (RequestValidationError "completed")
        | Absent => Return (mk s (optional (TaskCreateBody.description b)) false)
        | Value c => Return (mk s (optional (TaskCreateBody.description b)) c)
        end
      else Raise (RequestValidationError "title")
  | _ => Raise (RequestValidationError "title")
  end.
End TaskCreateRequest.

(** The body of [PUT /api/tasks/{task_id}] as received. *)
Module TaskUpdateBody.
Record t : Type := mk {
  title : field string;
  description : field string;
  completed : field bool
}.
End TaskUpdateBody.

Module TaskUpdateRequest.
Record t : Type := mk {
  title : option string;
  description : option string;
  completed : option bool
}.

(** Every field is optional with [default=None]; a given [title] must
    have 1..200 characters. *)
Definition model_validate (b : TaskUpdateBody.t) : result t :=
  match TaskUpdateBody.title b with
  | Value s =>
      if length_between 1 200 s then
        Return (mk (Some s) (optional (TaskUpdateBody.description b))
                   (optional (TaskUpdateBody.completed b)))
      else Raise (RequestValidationError "title")
  | _ =>
      Return (mk None (optional (TaskUpdateBody.description b))
                 (optional (TaskUpdateBody.completed b)))
  end.
End TaskUpdateRequest.

(** *** app/models/responses.py *)

Module UserResponse.
Record t : Type := mk { id : UUID; email : string; created_at : datetime }.

Definition model_validate (u : User.t) : t :=
  mk (User.id u) (User.email u) (User.created_at u).
End UserResponse.

Module TaskResponse.
Record t : Type := mk {
  id : UUID;
  title : string;
  description : option string;
  completed : bool;
  user_id : UUID;
  created_at : datetime;
  updated_at : datetime
}.

Definition model_validate (x : Task.t) : t :=
  mk (Task.id x) (Task.title x) (Task.description x) (Task.completed x)
     (Task.user_id x) (Task.created_at x) (Task.updated_at x).
End TaskResponse.

Module TaskListResponse.
Record t : Type := mk {
  tasks : list TaskResponse.t;
  total : Z;
  limit : Z;
  offset : Z
}.
End TaskListResponse.

(** ** The store *)

(** The committed state of the two tables. Each request works on its own
    [Session(engine)]; what one request commits is what the next reads. *)
Record Session : Type := mkSession {
  users : list User.t;
  tasks : list Task.t
}.

(** [session.exec(statement).first()] *)
Definition first {A : Type} (rows : list A) : option A := head rows.

(** [select(User).where(User.email == email)] *)
Definition select_user_by_email (email : string) (s : Session) : list User.t :=
  filter (λ u, User.email u = email) (users s).

(** [select(Task).where(Task.id == task_id)]: no ownership filter. *)
Definition select_task_by_id (task_id : UUID) (s : Session) : list Task.t :=
  filter (λ x, Task.id x = task_id) (tasks s).

(** [session.add(user); session.commit()] for a new row of [users]:
    [id] is the primary key and [email] has [unique=True]. *)
Definition insert_user (u : User.t) (s : Session) : result Session :=
  if decide (Exists (λ r, User.id r = User.id u) (users s)) then
    Raise (IntegrityError "users_pkey")
  else if decide (Exists (λ r, User.email r = User.email u) (users s)) then
    Raise (IntegrityError "ix_users_email")
  else Return (mkSession (users s ++ [u]) (tasks s)).

(** [session.add(task); session.commit()] for a new row of [tasks]:
    [id] is the primary key and [user_id] references [users.id]. *)
Definition insert_task (x : Task.t) (s : Session) : result Session :=
  if decide (Exists (λ r, Task.id r = Task.id x) (tasks s)) then
    Raise (IntegrityError "tasks_pkey")
  else if decide (Exists (λ u, User.id u = Task.user_id x) (users s)) then
    Return (mkSession (users s) (tasks s ++ [x]))
  else Raise (IntegrityError "tasks_user_id_fkey").

(** [session.add(task); session.commit()] for a row that was loaded and
    changed: the row with this primary key is overwritten. The code
    installs no trigger and the columns have no [onupdate], so the
    store writes the columns as they are on the object. *)
Definition update_task_row (x : Task.t) (s : Session) : Session :=
  mkSession (users s)
    ((λ r, if decide (Task.id r = Task.id x) then x else r) <$> tasks s).

(** [session.delete(task); session.commit()] *)
Definition delete_task_row (x : Task.t) (s : Session) : Session :=
  mkSession (users s) (filter (λ r, Task.id r ≠ Task.id x) (tasks s)).

(** [session.refresh(task)]: the row is read again by primary key. *)
Definition refresh_task (x : Task.t) (s : Session) : Task.t :=
  default x (first (select_task_by_id (Task.id x) s)).

(** ** app/auth.py *)

(** passlib's [CryptContext]: [hash] draws a salt and answers with the
    hash string or raises, [verify] answers with a [bool] or raises. *)
Record CryptContext : Type := mkCryptContext {
  ctx_hash : string → string → result string;
  ctx_verify : string → string → result bool
}.

Record Claims : Type := mkClaims {
  sub : option string;
  exp : datetime;
  iat : datetime
}.

(** A bearer token once its three segments are decoded: text that is no
    JWS at all, or claims with an HS256 signature made under some key
    (the signature verifies under that key and no other). *)
Inductive Token : Type :=
| Unparsable (text : string)
| JWS (claims : Claims) (signing_key : string).

(** The texts of the [JWTError]s python-jose raises: for a token it
    cannot parse (the text may depend on the token), for a signature that
    does not verify, and for an [exp] that has passed. *)
Record JoseMessages : Type := mkJoseMessages {
  msg_malformed : string → string;
  msg_signature : string;
  msg_expired : string
}.

(** Module-level configuration of [app/auth.py] and the library objects
    it holds. [UUID_parse] is [UUID(s)], [None] standing for its
    [ValueError]; [UUID_str] is [str(user_id)]. *)
Record Env : Type := mkEnv {
  SECRET_KEY : string;
  pwd_context : CryptContext;
  jose : JoseMessages;
  UUID_parse : string → option UUID;
  UUID_str : UUID → string
}.

Definition ACCESS_TOKEN_EXPIRE_HOURS : Z := 24.

Definition hash_password (env : Env) (salt password : string) : result string :=
  ctx_hash (pwd_context env) salt password.

Definition verify_password (env : Env) (plain_password hashed_password : string)
  : result bool :=
  ctx_verify (pwd_context env) plain_password hashed_password.

(** [jwt.encode(to_encode, SECRET_KEY, algorithm=ALGORITHM)] *)
Definition jwt_encode (claims : Claims) (key : string) : Token := JWS claims key.

(** [jwt.decode(token, SECRET_KEY, algorithms=[ALGORITHM])]: the
    signature is checked first, then the [exp] claim against the clock. *)
Definition jwt_decode (m : JoseMessages) (now : datetime) (token : Token)
  (key : string) : result Claims :=
  match token with
  | Unparsable text => Raise (JWTError (msg_malformed m text))
  | JWS claims signing_key =>
      if decide (signing_key = key) then
        if (exp claims <? now)%Z then Raise (JWTError (msg_expired m))
        else Return claims
      else Raise (JWTError (msg_signature m))
  end.

Definition create_access_token (env : Env) (now : datetime) (user_id : UUID) : Token :=
  let expire := now + ACCESS_TOKEN_EXPIRE_HOURS * 3600 in
  jwt_encode (mkClaims (Some (UUID_str env user_id)) expire now) (SECRET_KEY env).

Definition WWW_Authenticate : list (string * string) :=
  [("WWW-Authenticate", "Bearer")].

Definition credentials_exception : exn :=
  HTTPException HTTP_401_UNAUTHORIZED "Invalid token" WWW_Authenticate.

(** The [except JWTError as e] branch. *)
Definition on_JWTError (msg : string) : exn :=
  let error_msg := lower msg in
  if contains "expired" error_msg then
    HTTPException HTTP_401_UNAUTHORIZED "Token expired" WWW_Authenticate
  else if contains "signature" error_msg then
    HTTPException HTTP_401_UNAUTHORIZED "Invalid token signature" WWW_Authenticate
  else credentials_exception.

Definition get_current_user (env : Env) (now : datetime) (credentials : Token)
  : result UUID :=
  match jwt_decode (jose env) now credentials (SECRET_KEY env) with
  | Return payload =>
      match sub payload with
      | None => Raise credentials_exception
      | Some user_id_str =>
          match UUID_parse env user_id_str with
          | Some user_id => Return user_id
          | None =>
              Raise (HTTPException HTTP_401_UNAUTHORIZED
                       "Invalid token format (malformed user ID)" WWW_Authenticate)
          end
      end
  | Raise (JWTError msg) => Raise (on_JWTError msg)
  | Raise (ValueError _) =>
      Raise (HTTPException HTTP_401_UNAUTHORIZED
               "Invalid token format (malformed user ID)" WWW_Authenticate)
  | Raise _ => Raise credentials_exception
  end.

(** ** app/routes/auth.py *)

Module AuthResponse.
Record t : Type := mk {
  access_token : Token;
  token_type : string;
  user : UserResponse.t
}.
End AuthResponse.

(** The read-check of [register]: the statement and the [if existing_user]. *)
Definition register_check (request : RegisterRequest.t) (s : Session) : result unit :=
  match first (select_user_by_email (RegisterRequest.email request) s) with
  | Some existing_user =>
      Raise (HTTPException HTTP_409_CONFLICT "Email already registered" [])
  | None => Return tt
  end.

(** The rest of [register]: hash, build the row, add and commit.
    Neither an error of the hash context nor an [IntegrityError] of the
    commit is caught. [created_at] and [updated_at] each have their own
    [default_factory=datetime.utcnow]: [created] and [updated] are the
    two readings of the clock. *)
Definition register_commit (env : Env) (new_id : UUID) (created updated : datetime)
  (salt : string) (request : RegisterRequest.t) (s : Session)
  : result UserResponse.t * Session :=
  match hash_password env salt (RegisterRequest.password request) with
  | Raise e => (Raise e, s)
  | Return password_hash =>
      let user :=
        User.mk new_id (RegisterRequest.email request) password_hash created updated in
      match insert_user user s with
      | Raise e => (Raise e, s)
      | Return s' => (Return (UserResponse.model_validate user), s')
      end
  end.

Definition register (env : Env) (new_id : UUID) (created updated : datetime)
  (salt : string) (request : RegisterRequest.t) (s : Session)
  : result UserResponse.t * Session :=
  match register_check request s with
  | Raise e => (Raise e, s)
  | Return _ => register_commit env new_id created updated salt request s
  end.

Definition login (env : Env) (now : datetime) (request : LoginRequest.t)
  (s : Session) : result AuthResponse.t :=
  match first (select_user_by_email (LoginRequest.email request) s) with
  | None =>
      Raise (HTTPException HTTP_401_UNAUTHORIZED "Invalid email or password" [])
  | Some user =>
      match verify_password env (LoginRequest.password request) (User.password_hash user) with
      | Raise e => Raise e
      | Return false =>
          Raise (HTTPException HTTP_401_UNAUTHORIZED "Invalid email or password" [])
      | Return true =>
          let access_token := create_access_token env now (User.id user) in
          Return (AuthResponse.mk access_token "bearer" (UserResponse.model_validate user))
      end
  end.

(** ** app/routes/tasks.py *)

(** [Query(default=..., ge=..., le=...)] on an integer parameter: the
    default when the parameter is missing, a 422 when it is out of range. *)
Definition Query (name : string) (default ge : Z) (le : option Z) (raw : option Z)
  : result Z :=
  match raw with
  | None => Return default
  | Some v =>
      if ((ge <=? v)%Z && match le with Some hi => (v <=? hi)%Z | None => true end)%bool
      then Return v
      else Raise (RequestValidationError name)
  end.

(** [Task.created_at.desc()] *)
Definition created_at_desc (a b : Task.t) : Prop :=
  (Task.created_at b ≤ Task.created_at a)%Z.

#[global] Instance created_at_desc_dec (a b : Task.t) : Decision (created_at_desc a b).
Proof. unfold created_at_desc. apply _. Defined.

(** [ORDER BY created_at DESC] as the database runs it for one query:
    [order rows] is the rows again, newest first. Where rows have equal
    [created_at], SQL leaves their order to the database, so [order] is
    an argument of the handler and any function that meets this is
    a possible one. *)
Definition order_by_created_at_desc (order : list Task.t → list Task.t) : Prop :=
  ∀ rows, order rows ≡ₚ rows ∧ StronglySorted created_at_desc (order rows).

(** [LIMIT] and [OFFSET] reach the database as 64-bit integers. *)
Definition BIGINT_MAX : Z := 2 ^ 63 - 1.

Definition in_bigint_range (n : Z) : bool := ((0 <=? n) && (n <=? BIGINT_MAX))%Z%bool.

(** [session.exec(statement).all()] for the ordered, paginated
    statement: a [LIMIT] or [OFFSET] outside the range ends in the
    database's [DataError]. *)
Definition exec_page (order : list Task.t → list Task.t) (statement : list Task.t)
  (limit offset : Z) : result (list Task.t) :=
  if (in_bigint_range limit && in_bigint_range offset)%bool then
    Return (take (Z.to_nat limit) (drop (Z.to_nat offset) (order statement)))
  else Raise (DataError "value out of range for LIMIT/OFFSET").

(** The statement of [list_tasks] before pagination: the user's rows,
    narrowed by [completed] when it is given. *)
Definition list_statement (current_user_id : UUID) (completed : option bool)
  (s : Session) : list Task.t :=
  let statement := filter (λ x, Task.user_id x = current_user_id) (tasks s) in
  match completed with
  | Some c => filter (λ x, Task.completed x = c) statement
  | None => statement
  end.

(** The count is taken first, over the statement without ordering and
    pagination; then the page is fetched. *)
Definition list_tasks (order : list Task.t → list Task.t) (current_user_id : UUID)
  (limit offset : Z) (completed : option bool) (s : Session)
  : result TaskListResponse.t :=
  let statement := list_statement current_user_id completed s in
  let total := Z.of_nat (length statement) in
  match exec_page order statement limit offset with
  | Raise e => Raise e
  | Return rows =>
      Return (TaskListResponse.mk (TaskResponse.model_validate <$> rows) total limit offset)
  end.

(** [GET /api/tasks] with its query parameters as the client gave them. *)
Definition get_tasks (order : list Task.t → list Task.t) (current_user_id : UUID)
  (limit offset : option Z) (completed : option bool) (s : Session)
  : result TaskListResponse.t :=
  match Query "limit" 10 1 (Some 100%Z) limit with
  | Raise e => Raise e
  | Return l =>
      match Query "offset" 0 0 None offset with
      | Raise e => Raise e
      | Return o => list_tasks order current_user_id l o completed s
      end
  end.

(** [id], [created_at] and [updated_at] take their [default_factory]
    values: [new_id] is the [uuid4()], and [created] and [updated] are
    the two readings of the clock, one for each of the two fields. *)
Definition create_task (request : TaskCreateRequest.t) (current_user_id : UUID)
  (new_id : UUID) (created updated : datetime) (s : Session)
  : result TaskResponse.t * Session :=
  let task :=
    Task.mk new_id (TaskCreateRequest.title request)
      (TaskCreateRequest.description request) (TaskCreateRequest.completed request)
      current_user_id created updated in
  match insert_task task s with
  | Raise e => (Raise e, s)
  | Return s' => (Return (TaskResponse.model_validate (refresh_task task s')), s')
  end.

Definition get_task (task_id current_user_id : UUID) (s : Session)
  : result TaskResponse.t :=
  match first (select_task_by_id task_id s) with
  | None => Raise (HTTPException HTTP_404_NOT_FOUND "Task not found" [])
  | Some task =>
      if decide (Task.user_id task ≠ current_user_id) then
        Raise (HTTPException HTTP_403_FORBIDDEN
                 "Access denied: task belongs to another user" [])
      else Return (TaskResponse.model_validate task)
  end.

(** The three assignments of [update_task], each under its
    [is not None] test. *)
Definition assign_title (v : option string) (x : Task.t) : Task.t :=
  match v with
  | Some title =>
      Task.mk (Task.id x) title (Task.description x) (Task.completed x)
        (Task.user_id x) (Task.created_at x) (Task.updated_at x)
  | None => x
  end.

Definition assign_description (v : option string) (x : Task.t) : Task.t :=
  match v with
  | Some description =>
      Task.mk (Task.id x) (Task.title x) (Some description) (Task.completed x)
        (Task.user_id x) (Task.created_at x) (Task.updated_at x)
  | None => x
  end.

Definition assign_completed (v : option bool) (x : Task.t) : Task.t :=
  match v with
  | Some completed =>
      Task.mk (Task.id x) (Task.title x) (Task.description x) completed
        (Task.user_id x) (Task.created_at x) (Task.updated_at x)
  | None => x
  end.

Definition update_task (task_id : UUID) (request : TaskUpdateRequest.t)
  (current_user_id : UUID) (s : Session) : result TaskResponse.t * Session :=
  match first (select_task_by_id task_id s) with
  | None => (Raise (HTTPException HTTP_404_NOT_FOUND "Task not found" []), s)
  | Some task =>
      if decide (Task.user_id task ≠ current_user_id) then
        (Raise (HTTPException HTTP_403_FORBIDDEN
                  "Access denied: task belongs to another user" []), s)
      else
        let task := assign_title (TaskUpdateRequest.title request) task in
        let task := assign_description (TaskUpdateRequest.description request) task in
        let task := assign_completed (TaskUpdateRequest.completed request) task in
        let s' := update_task_row task s in
        (Return (TaskResponse.model_validate (refresh_task task s')), s')
  end.

Definition delete_task (task_id current_user_id : UUID) (s : Session)
  : result unit * Session :=
  match first (select_task_by_id task_id s) with
  | None => (Raise (HTTPException HTTP_404_NOT_FOUND "Task not found" []), s)
  | Some task =>
      if decide (Task.user_id task ≠ current_user_id) then
        (Raise (HTTPException HTTP_403_FORBIDDEN
                  "Access denied: task belongs to another user" []), s)
      else (Return tt, delete_task_row task s)
  end.

(** *** The endpoints with their request bodies and dependencies *)

(** [PUT /api/tasks/{task_id}]: the body is validated into a
    [TaskUpdateRequest] before the handler runs. *)
Definition put_task (task_id : UUID) (body : TaskUpdateBody.t)
  (current_user_id : UUID) (s : Session) : result TaskResponse.t * Session :=
  match TaskUpdateRequest.model_validate body with
  | Raise e => (Raise e, s)
  | Return request => update_task task_id request current_user_id s
  end.

(** [POST /api/tasks]: [current_user_id] comes from
    [Depends(get_current_user)], the request from the validated body.
    [now] is the time at which the token is checked. *)
Definition post_task (env : Env) (now : datetime) (new_id : UUID)
  (created updated : datetime) (credentials : Token) (body : TaskCreateBody.t)
  (s : Session) : result TaskResponse.t * Session :=
  match get_current_user env now credentials with
  | Raise e => (Raise e, s)
  | Return current_user_id =>
      match TaskCreateRequest.model_validate body with
      | Raise e => (Raise e, s)
      | Return request => create_task request current_user_id new_id created updated s
      end
  end.

(** ** Two registrations in flight *)

(** The handler [register] runs in a worker thread: between its select
    and its commit another request may run. A call in flight is at its
    read-check, at its commit, or finished. *)
Record Call : Type := mkCall {
  call_id : UUID;
  call_now : datetime;
  call_updated : datetime;
  call_salt : string;
  call_request : RegisterRequest.t
}.

Inductive Progress : Type :=
| AtCheck
| AtCommit
| Finished (outcome : result UserResponse.t).

Definition register_step (env : Env) (c : Call) (p : Progress) (s : Session)
  : Progress * Session :=
  match p with
  | AtCheck =>
      match register_check (call_request c) s with
      | Raise e => (Finished (Raise e), s)
      | Return _ => (AtCommit, s)
      end
  | AtCommit =>
      let r := register_commit env (call_id c) (call_now c) (call_updated c)
                 (call_salt c) (call_request c) s in
      (Finished r.1, r.2)
  | Finished _ => (p, s)
  end.

Inductive Turn : Type := RunA | RunB.

(** Two calls [a] and [b] under a schedule of turns. *)
Fixpoint run (env : Env) (a b : Call) (schedule : list Turn)
  (st : Progress * Progress * Session) : Progress * Progress * Session :=
  match schedule with
  | [] => st
  | RunA :: rest =>
      let r := register_step env a st.1.1 st.2 in
      run env a b rest (r.1, st.1.2, r.2)
  | RunB :: rest =>
      let r := register_step env b st.1.2 st.2 in
      run env a b rest (st.1.1, r.1, r.2)
  end.

Definition register_call (env : Env) (c : Call) (s : Session)
  : result UserResponse.t * Session :=
  register env (call_id c) (call_now c) (call_updated c) (call_salt c)
    (call_request c) s.

(** ** The outcomes and predicates the statements speak of *)

Definition TaskNotFound : exn :=
  HTTPException HTTP_404_NOT_FOUND "Task not found" [].

Definition TaskForbidden : exn :=
  HTTPException HTTP_403_FORBIDDEN "Access denied: task belongs to another user" [].

Definition DuplicateEmail : exn :=
  HTTPException HTTP_409_CONFLICT "Email already registered" [].

Definition unauthorized (detail : string) : exn :=
  HTTPException HTTP_401_UNAUTHORIZED detail WWW_Authenticate.

(** The tasks a list request is about: those of the user that pass the
    [completed] filter when one is given. *)
Definition matches (user : UUID) (completed : option bool) (x : Task.t) : Prop :=
  Task.user_id x = user
  ∧ match completed with
    | Some c => Task.completed x = c
    | None => True
    end.

#[global] Instance matches_dec user completed x : Decision (matches user completed x).
Proof. unfold matches. destruct completed; apply _. Defined.



(** [body] with its [description] member replaced. *)
Definition with_description (d : field string) (body : TaskUpdateBody.t)
  : TaskUpdateBody.t :=
  TaskUpdateBody.mk (TaskUpdateBody.title body) d (TaskUpdateBody.completed body).

(** ** app/routes/auth.py: the profile endpoint *)

(** [select(User).where(User.id == current_user_id)] *)
Definition select_user_by_id (user_id : UUID) (s : Session) : list User.t :=
  filter (λ u, User.id u = user_id) (users s).

Definition UserNotFound : exn :=
  HTTPException HTTP_404_NOT_FOUND "User not found" [].

Definition get_me (current_user_id : UUID) (s : Session) : result UserResponse.t :=
  match first (select_user_by_id current_user_id s) with
  | None => Raise UserNotFound
  | Some user => Return (UserResponse.model_validate user)
  end.

(** ** The constraints of the schema *)

(** What the two models declare: [id] is the primary key of each table,
    [users.email] is unique, and [tasks.user_id] references [users.id]. *)
Definition constraints (s : Session) : Prop :=
  NoDup (User.id <$> users s)
  ∧ NoDup (User.email <$> users s)
  ∧ NoDup (Task.id <$> tasks s)
  ∧ Forall (λ x, Exists (λ u, User.id u = Task.user_id x) (users s)) (tasks s).

(** ** src/services/database.py *)

(** The task operations of [DatabaseService], over the [Task] model of
    [src/models]: rows are selected by id and owner together. *)
Module DatabaseService.

Inductive TaskStatus : Type := pending | in_progress | completed.
Inductive TaskPriority : Type := low | medium | high.

#[global] Instance TaskStatus_eq_dec : EqDecision TaskStatus.
Proof. solve_decision. Defined.

Record Task : Type := mkTask {
  id : UUID;
  user_id : UUID;
  title : string;
  description : option string;
  status : TaskStatus;
  priority : TaskPriority;
  due_date : option datetime;
  created_at : datetime;
  updated_at : datetime;
  completed_at : option datetime
}.

(** [select(Task).where(Task.id == task_id, Task.user_id == user_id)]
    and [.first()] *)
Definition get_task_by_id (rows : list Task) (task_id user_id' : UUID) : option Task :=
  first (filter (λ x, id x = task_id ∧ user_id x = user_id') rows).

Definition set_title (v : option string) (x : Task) : Task :=
  match v with
  | Some title' =>
      mkTask (id x) (user_id x) title' (description x) (status x) (priority x)
        (due_date x) (created_at x) (updated_at x) (completed_at x)
  | None => x
  end.

Definition set_description (v : option string) (x : Task) : Task :=
  match v with
  | Some description' =>
      mkTask (id x) (user_id x) (title x) (Some description') (status x) (priority x)
        (due_date x) (created_at x) (updated_at x) (completed_at x)
  | None => x
  end.

(** The [if status is not None] block: the status is stored, and the
    completion time is set on entering [completed] when there is none
    yet, cleared on any other status. *)
Definition set_status (now : datetime) (v : option TaskStatus) (x : Task) : Task :=
  match v with
  | Some status' =>
      let completed_at' :=
        match status', completed_at x with
        | completed, None => Some now
        | completed, Some t => Some t
        | _, _ => None
        end in
      mkTask (id x) (user_id x) (title x) (description x) status' (priority x)
        (due_date x) (created_at x) (updated_at x) completed_at'
  | None => x
  end.

Definition set_priority (v : option TaskPriority) (x : Task) : Task :=
  match v with
  | Some priority' =>
      mkTask (id x) (user_id x) (title x) (description x) (status x) priority'
        (due_date x) (created_at x) (updated_at x) (completed_at x)
  | None => x
  end.

Definition set_due_date (v : option datetime) (x : Task) : Task :=
  match v with
  | Some due_date' =>
      mkTask (id x) (user_id x) (title x) (description x) (status x) (priority x)
        (Some due_date') (created_at x) (updated_at x) (completed_at x)
  | None => x
  end.

(** [task.updated_at = datetime.utcnow()] *)
Definition set_updated_at (now : datetime) (x : Task) : Task :=
  mkTask (id x) (user_id x) (title x) (description x) (status x) (priority x)
    (due_date x) (created_at x) now (completed_at x).

(** [session.add(task); session.commit()]: the row with this primary key
    is overwritten. *)
Definition write_row (x : Task) (rows : list Task) : list Task :=
  (λ r, if decide (id r = id x) then x else r) <$> rows.

(** [session.delete(task); session.commit()] *)
Definition delete_row (x : Task) (rows : list Task) : list Task :=
  filter (λ r, id r ≠ id x) rows.

Definition update_task (now : datetime) (rows : list Task) (task_id user_id' : UUID)
  (title' description' : option string) (status' : option TaskStatus)
  (priority' : option TaskPriority) (due_date' : option datetime)
  : option Task * list Task :=
  match get_task_by_id rows task_id user_id' with
  | None => (None, rows)
  | Some task =>
      let task := set_title title' task in
      let task := set_description description' task in
      let task := set_status now status' task in
      let task := set_priority priority' task in
      let task := set_due_date due_date' task in
      let task := set_updated_at now task in
      (Some task, write_row task rows)
  end.

Definition delete_task (rows : list Task) (task_id user_id' : UUID)
  : bool * list Task :=
  match get_task_by_id rows task_id user_id' with
  | None => (false, rows)
  | Some task => (true, delete_row task rows)
  end.

(** A row's completion time is there exactly when its status is
    [completed]. *)
Definition completion_recorded (x : Task) : Prop :=
  status x = completed ↔ is_Some (completed_at x).

End DatabaseService.

(** ** A concrete environment and database

    Instances of the library interfaces and a small database, on which
    the handlers are run. *)

Module Demo.

(** A [CryptContext] that follows passlib's for [schemes=["bcrypt"]]
    step by step; only the digest is a stand-in for Blowfish (31
    characters computed from cost, salt and secret), and nothing below
    depends on it being one-way.
    - [hash]: a secret of more than 4096 characters or with a NUL
      character is refused with a [ValueError]; the hash string is the
      ident, the cost, the 22 characters of salt and the 31 of digest.
    - [verify]: a string that starts with no bcrypt ident raises
      [UnknownHashError]; then an oversized secret, a string that has an
      ident but is not a well-formed bcrypt hash, and a secret with a
      NUL character each raise a [ValueError]; otherwise the answer is
      whether the digest of the secret is the one in the hash.
    The texts of the errors are shortened; their classes and the order
    of the checks are passlib's. *)
Definition bcrypt64 : string :=
  "./ABCDEFGHIJKLMNOPQRSTUVWXYZabcdefghijklmnopqrstuvwxyz0123456789".

Definition in_bcrypt64 (c : ascii) : bool := contains (String c EmptyString) bcrypt64.

Fixpoint all_chars (P : ascii → bool) (s : string) : bool :=
  match s with
  | EmptyString => true
  | String c s' => (P c && all_chars P s')%bool
  end.

Fixpoint has_nul (s : string) : bool :=
  match s with
  | EmptyString => false
  | String c s' => (Ascii.eqb c Ascii.zero || has_nul s')%bool
  end.

Definition oversized (secret : string) : bool := Nat.ltb 4096 (String.length secret).

Fixpoint mix (s : string) (acc : N) : N :=
  match s with
  | EmptyString => acc
  | String c s' => mix s' ((acc * 257 + N_of_ascii c + 1) mod 64 ^ 31)%N
  end.

Fixpoint encode64 (width : nat) (n : N) : string :=
  match width with
  | O => EmptyString
  | S w =>
      String (default "."%char (String.get (N.to_nat (n mod 64)%N) bcrypt64))
        (encode64 w (n / 64)%N)
  end.

Definition stand_in_digest (cost salt secret : string) : string :=
  encode64 31 (mix (cost +:+ salt +:+ secret) 0%N).

Definition hash_string (salt secret : string) : string :=
  "$2b$12$" +:+ salt +:+ stand_in_digest "12" salt secret.

Definition bcrypt_hash (salt secret : string) : result string :=
  if oversized secret then Raise (ValueError "password exceeds maximum allowed size")
  else if has_nul secret then
    Raise (ValueError "bcrypt does not allow NULL bytes in password")
  else Return (hash_string salt secret).

Definition idents : list string := ["$2b$"; "$2a$"; "$2y$"; "$2x$"; "$2$"].

Definition is_digit (c : ascii) : bool :=
  (Nat.leb 48 (nat_of_ascii c) && Nat.leb (nat_of_ascii c) 57)%bool.

Definition cost_value (cost : string) : nat :=
  match cost with
  | String a (String b EmptyString) => (nat_of_ascii a - 48) * 10 + (nat_of_ascii b - 48)
  | _ => 0
  end.

(** The parts of a hash string after its ident: two digits of cost
    between 04 and 31, a [$], 22 characters of salt and 31 of digest. *)
Definition parse_bcrypt (ident rest : string) : option (string * string * string) :=
  let cost := substring 0 2 rest in
  let data := substring 3 53 rest in
  if (negb (String.eqb ident "$2x$")
      && Nat.eqb (String.length rest) 56
      && String.eqb (substring 2 1 rest) "$"
      && all_chars is_digit cost
      && Nat.leb 4 (cost_value cost) && Nat.leb (cost_value cost) 31
      && all_chars in_bcrypt64 data)%bool
  then Some (cost, substring 0 22 data, substring 22 31 data)
  else None.

Definition bcrypt_verify (secret hash : string) : result bool :=
  match List.find (λ ident, String.prefix ident hash) idents with
  | None => Raise UnknownHashError
  | Some ident =>
      if oversized secret then Raise (ValueError "password exceeds maximum allowed size")
      else
        let rest := substring (String.length ident)
                      (String.length hash - String.length ident) hash in
        match parse_bcrypt ident rest with
        | None => Raise (ValueError "malformed bcrypt hash")
        | Some (cost, salt, checksum) =>
            if has_nul secret then
              Raise (ValueError "bcrypt does not allow NULL bytes in password")
            else Return (String.eqb (stand_in_digest cost salt secret) checksum)
        end
  end.

Definition context : CryptContext := mkCryptContext bcrypt_hash bcrypt_verify.

(** Salts as passlib draws them: 22 characters of the bcrypt alphabet. *)
Definition salt_a : string := "alicesaltalicesaltalic".
Definition salt_b : string := "bobsaltbobsaltbobsaltb".
Definition salt_c : string := "carolsaltcarolsaltcaro".
Definition salt_d : string := "davesaltdavesaltdavesa".

(** A password with a NUL character in it. *)
Definition nul_password : string := "wrong" +:+ String Ascii.zero "pass".

(** One way in which a database may order rows: a stable merge sort. *)
Definition order (rows : list Task.t) : list Task.t := merge_sort created_at_desc rows.

(** The messages of python-jose for a token with too few segments, a
    signature that does not verify, and an [exp] in the past. *)
Definition messages : JoseMessages :=
  mkJoseMessages (λ _, "Not enough segments") "Signature verification failed."
    "Signature has expired.".

Definition hex_value (c : ascii) : option N :=
  let n := N_of_ascii c in
  if ((48 <=? n) && (n <=? 57))%N then Some (n - 48)%N
  else if ((97 <=? n) && (n <=? 102))%N then Some (n - 87)%N
  else if ((65 <=? n) && (n <=? 70))%N then Some (n - 55)%N
  else None.

Fixpoint hex_digits (s : string) (acc : N) : option N :=
  match s with
  | EmptyString => Some acc
  | String c s' =>
      match hex_value c with
      | Some d => hex_digits s' (16 * acc + d)%N
      | None => None
      end
  end.

Fixpoint without_hyphens (s : string) : string :=
  match s with
  | EmptyString => EmptyString
  | String c s' =>
      if Ascii.eqb c "-" then without_hyphens s' else String c (without_hyphens s')
  end.

(** The hyphenated and the plain 32-digit forms that [UUID(s)] accepts. *)
Definition parse_uuid (s : string) : option UUID :=
  let hex := without_hyphens s in
  if Nat.eqb (String.length hex) 32 then hex_digits hex 0%N else None.

Definition hex_char (d : N) : ascii :=
  if (d <? 10)%N then ascii_of_N (48 + d) else ascii_of_N (87 + d).

Fixpoint hex_of (width : nat) (n : N) : string :=
  match width with
  | O => EmptyString
  | S w => hex_of w (n / 16)%N +:+ String (hex_char (n mod 16)%N) EmptyString
  end.

Definition str_uuid (u : UUID) : string :=
  let h := hex_of 32 u in
  substring 0 8 h +:+ "-" +:+ substring 8 4 h +:+ "-" +:+ substring 12 4 h +:+ "-"
  +:+ substring 16 4 h +:+ "-" +:+ substring 20 12 h.

Definition env : Env :=
  mkEnv "test-secret-key-minimum-32-characters-required-for-testing"
    context messages parse_uuid str_uuid.

Definition alice : User.t :=
  User.mk 1%N "a@x.com" (hash_string salt_a "password123") 1000 1000.

Definition bob : User.t :=
  User.mk 2%N "b@x.com" (hash_string salt_b "testpass456") 1001 1001.

Definition milk : Task.t :=
  Task.mk 10%N "Buy milk" (Some "two litres") false 1%N 2000 2000.

Definition bread : Task.t :=
  Task.mk 11%N "Buy bread" None true 1%N 2005 2005.

Definition report : Task.t :=
  Task.mk 12%N "Write report" None false 2%N 2003 2003.

Definition eggs : Task.t :=
  Task.mk 13%N "Buy eggs" None false 1%N 2010 2010.

Definition db : Session := mkSession [alice; bob] [milk; bread; report; eggs].

Definition token_for (now : datetime) (u : User.t) : Token :=
  create_access_token env now (User.id u).

(** A body that tries to name another owner. *)
Definition spoofing_body : TaskCreateBody.t :=
  TaskCreateBody.mk (Value "Buy milk") Null Absent
    [("user_id", "00000000-0000-0000-0000-000000000001")].

(** Two registrations of one e-mail with different passwords. *)
Definition call_a : Call :=
  mkCall 3%N 3000 3001 salt_c (RegisterRequest.mk "c@x.com" "password-one").

Definition call_b : Call :=
  mkCall 4%N 3002 3002 salt_d (RegisterRequest.mk "c@x.com" "password-two").

End Demo.

(** Rows of the service's task table: two tasks of user 1, one of them
    completed, and one task of user 2. *)
Module DemoService.
Import DatabaseService.

Definition laundry : Task :=
  mkTask 30%N 1%N "Do laundry" None pending medium None 5000 5000 None.

Definition taxes : Task :=
  mkTask 31%N 1%N "File taxes" (Some "before April") completed high (Some 9000%Z)
    5001 5600 (Some 5600%Z).

Definition garden : Task :=
  mkTask 32%N 2%N "Water the garden" None in_progress low None 5002 5002 None.

Definition rows : list Task := [laundry; taxes; garden].

End DemoService.

(** * Properties *)

(** ** Lookups in the task table *)

Section TaskLookup.
Implicit Types (s : Session) (rows : list Task.t) (x task : Task.t).

Lemma first_filter_None {A : Type} (P : A → Prop) `{∀ a, Decision (P a)}
  (l : list A) :
  Forall (λ a, ¬ P a) l → first (filter P l) = None.
Proof.
  induction 1 as [|a l Ha _ IH]; [done|].
  rewrite filter_cons. by destruct (decide (P a)).
Qed.

Lemma first_filter_Some {A : Type} (P : A → Prop) `{∀ a, Decision (P a)}
  (l : list A) (a : A) :
  first (filter P l) = Some a → a ∈ l ∧ P a.
Proof.
  induction l as [|b l IH]; [done|].
  rewrite filter_cons. destruct (decide (P b)) as [Hb|Hb]; simpl.
  - intros [= ->]. split; [left | done].
  - intros [Hin HP]%IH. split; [by right | done].
Qed.

Lemma first_filter_Exists {A : Type} (P : A → Prop) `{∀ a, Decision (P a)}
  (l : list A) :
  Exists P l → ∃ a, first (filter P l) = Some a.
Proof.
  induction 1 as [a l Ha | a l _ IH]; rewrite filter_cons;
    destruct (decide (P a)); simpl; eauto.
  done.
Qed.

(** No row carries the id: the select comes back empty. *)
Lemma select_task_missing s task_id :
  Forall (λ x, Task.id x ≠ task_id) (tasks s) →
  first (select_task_by_id task_id s) = None.
Proof. apply first_filter_None. Qed.

(** Some row carries the id and every such row has another owner: the
    select finds a row, and that row has another owner. *)
Lemma select_task_foreign s task_id user :
  Exists (λ x, Task.id x = task_id) (tasks s) →
  Forall (λ x, Task.id x = task_id → Task.user_id x ≠ user) (tasks s) →
  ∃ task, first (select_task_by_id task_id s) = Some task
          ∧ Task.id task = task_id ∧ Task.user_id task ≠ user.
Proof.
  intros Hex Hall. unfold select_task_by_id.
  destruct (first_filter_Exists _ _ Hex) as [task Htask].
  exists task. split; [done|].
  apply first_filter_Some in Htask as [Hin Hid].
  split; [done|]. rewrite Forall_forall in Hall. by apply Hall.
Qed.

Lemma assign_keeps_identity vt vd vc x :
  let x' := assign_completed vc (assign_description vd (assign_title vt x)) in
  Task.id x' = Task.id x ∧ Task.user_id x' = Task.user_id x
  ∧ Task.created_at x' = Task.created_at x
  ∧ Task.updated_at x' = Task.updated_at x.
Proof. by destruct vt, vd, vc. Qed.

(** After the row of [x] is overwritten, reading its primary key again
    gives [x], provided the table had a row with that key. *)
Lemma select_after_update rows x :
  Exists (λ r, Task.id r = Task.id x) rows →
  first (filter (λ r, Task.id r = Task.id x)
           ((λ r, if decide (Task.id r = Task.id x) then x else r) <$> rows))
  = Some x.
Proof.
  induction 1 as [r rows Hr | r rows _ IH]; rewrite fmap_cons, filter_cons;
    destruct (decide (Task.id r = Task.id x)) as [Hr'|Hr']; try done.
  - by rewrite decide_True.
  - by rewrite decide_True.
  - by rewrite decide_False.
Qed.

Lemma refresh_after_update s x :
  Exists (λ r, Task.id r = Task.id x) (tasks s) →
  first (select_task_by_id (Task.id x) (update_task_row x s)) = Some x
  ∧ refresh_task x (update_task_row x s) = x.
Proof.
  intros Hx. unfold refresh_task, select_task_by_id, update_task_row; simpl.
  by rewrite select_after_update.
Qed.

Lemma select_Some_Exists s task_id task :
  first (select_task_by_id task_id s) = Some task →
  Task.id task = task_id ∧ Exists (λ r, Task.id r = task_id) (tasks s).
Proof.
  intros Hsel. apply first_filter_Some in Hsel as [Hin Hid].
  split; [done|]. apply Exists_exists. eauto.
Qed.

End TaskLookup.

(** ** Existence before ownership *)

(** C1. For get, update and delete of task [task_id] by user [user]:
    when no row has that id the outcome is 404 NotFound; when a row has
    it but its owner is another user the outcome is 403 Forbidden, no
    task is returned and the database is left as it was. The two
    outcomes differ, so a foreign task is never reported as missing and
    a missing one never as forbidden. *)
Theorem task_access_existence_before_ownership
  (s : Session) (task_id user : UUID) (request : TaskUpdateRequest.t) :
  (Forall (λ x, Task.id x ≠ task_id) (tasks s) →
     get_task task_id user s = Raise TaskNotFound
     ∧ update_task task_id request user s = (Raise TaskNotFound, s)
     ∧ delete_task task_id user s = (Raise TaskNotFound, s))
  ∧ (Exists (λ x, Task.id x = task_id) (tasks s) →
     Forall (λ x, Task.id x = task_id → Task.user_id x ≠ user) (tasks s) →
     get_task task_id user s = Raise TaskForbidden
     ∧ update_task task_id request user s = (Raise TaskForbidden, s)
     ∧ delete_task task_id user s = (Raise TaskForbidden, s))
  ∧ TaskNotFound ≠ TaskForbidden.
Proof.
  split; [|split].
  - intros Hmiss. apply select_task_missing in Hmiss.
    unfold get_task, update_task, delete_task. by rewrite Hmiss.
  - intros Hex Hall.
    destruct (select_task_foreign s task_id user Hex Hall) as (task & Hsel & _ & Hown).
    unfold get_task, update_task, delete_task. rewrite Hsel.
    by destruct (decide (Task.user_id task ≠ user)).
  - discriminate.
Qed.

Lemma task_access_existence_before_ownership_witness :
  (get_task 99%N 1%N Demo.db = Raise TaskNotFound
   ∧ delete_task 99%N 1%N Demo.db = (Raise TaskNotFound, Demo.db))
  ∧ (get_task 12%N 1%N Demo.db = Raise TaskForbidden
     ∧ update_task 12%N (TaskUpdateRequest.mk (Some "mine") None (Some true)) 1%N Demo.db
       = (Raise TaskForbidden, Demo.db)
     ∧ delete_task 12%N 1%N Demo.db = (Raise TaskForbidden, Demo.db)).
Proof.
  split.
  - destruct (task_access_existence_before_ownership Demo.db 99%N 1%N
                (TaskUpdateRequest.mk None None None)) as (Hmiss & _ & _).
    destruct Hmiss as (Hget & _ & Hdel).
    + repeat constructor; vm_compute; discriminate.
    + by split.
  - destruct (task_access_existence_before_ownership Demo.db 12%N 1%N
                (TaskUpdateRequest.mk (Some "mine") None (Some true))) as (_ & Hforeign & _).
    apply Hforeign.
    + do 2 apply Exists_cons_tl. by apply Exists_cons_hd.
    + repeat constructor; vm_compute; intros; discriminate.
Defined.

(** ** The owner of a created task *)

Lemma refresh_after_insert (x : Task.t) (s s' : Session) :
  insert_task x s = Return s' →
  tasks s' = tasks s ++ [x] ∧ refresh_task x s' = x.
Proof.
  unfold insert_task. destruct (decide (Exists _ (tasks s))) as [|Hfresh]; [done|].
  destruct (decide (Exists _ (users s))); [|done].
  intros [= <-]. split; [done|].
  unfold refresh_task, select_task_by_id; simpl.
  rewrite filter_app, filter_cons, decide_True, filter_nil by done.
  apply not_Exists_Forall in Hfresh; [|intros r; apply _].
  pose proof (first_filter_None (λ r, Task.id r = Task.id x) (tasks s) Hfresh) as Hnone.
  by destruct (filter _ (tasks s)).
Qed.

Lemma create_task_owner (request : TaskCreateRequest.t) (user new_id : UUID)
  (created updated : datetime) (s s' : Session) (response : TaskResponse.t) :
  create_task request user new_id created updated s = (Return response, s') →
  ∃ row, tasks s' = tasks s ++ [row]
         ∧ response = TaskResponse.model_validate row
         ∧ Task.id row = new_id ∧ Task.user_id row = user.
Proof.
  unfold create_task.
  destruct (insert_task _ s) as [s1|e] eqn:Hins; [|done].
  apply refresh_after_insert in Hins as [Hrows Hrefresh].
  rewrite Hrefresh. intros [= <- <-]. eauto.
Qed.

(** C2. Whatever body the client sends to [POST /api/tasks], the
    members the model does not declare included, the task that is
    created belongs to the identity the bearer token verifies to: both
    the stored row and the response carry that [user_id]. *)
Theorem created_task_owner_is_token_identity
  (env : Env) (now : datetime) (new_id : UUID) (created updated : datetime)
  (credentials : Token) (body : TaskCreateBody.t) (s s' : Session) (user : UUID)
  (response : TaskResponse.t) :
  get_current_user env now credentials = Return user →
  post_task env now new_id created updated credentials body s = (Return response, s') →
  TaskResponse.user_id response = user
  ∧ ∃ row, tasks s' = tasks s ++ [row]
           ∧ response = TaskResponse.model_validate row
           ∧ Task.user_id row = user.
Proof.
  intros Hauth. unfold post_task. rewrite Hauth.
  destruct (TaskCreateRequest.model_validate body) as [request|]; [|done].
  intros (row & Hrows & -> & _ & Howner)%create_task_owner.
  split; [done|]. by exists row.
Qed.

Lemma created_task_owner_is_token_identity_witness :
  ∃ response s',
    post_task Demo.env 3000 20%N 3000 3001 (Demo.token_for 2500 Demo.bob)
      Demo.spoofing_body Demo.db
    = (Return response, s')
    ∧ TaskResponse.user_id response = User.id Demo.bob.
Proof.
  eexists _, _. split; [vm_compute; reflexivity|].
  eapply (created_task_owner_is_token_identity Demo.env 3000 20%N 3000 3001
            (Demo.token_for 2500 Demo.bob) Demo.spoofing_body Demo.db).
  - vm_compute. reflexivity.
  - vm_compute. reflexivity.
Defined.

(** ** Login failures *)




(** ** Registering an e-mail twice *)

(** A call that runs alone takes its two steps back to back: that is
    [register]. *)
Lemma run_alone_is_register (env : Env) (a b : Call) (pb : Progress) (s : Session) :
  run env a b [RunA; RunA] (AtCheck, pb, s)
  = (Finished (register_call env a s).1, pb, (register_call env a s).2).
Proof.
  unfold register_call, register; simpl.
  destruct (register_check (call_request a) s); simpl; [|done].
  by destruct (register_commit _ _ _ _ _ _ s).
Qed.

Lemma insert_user_unique_emails (u : User.t) (s s' : Session) :
  NoDup (User.email <$> users s) →
  insert_user u s = Return s' →
  NoDup (User.email <$> users s') ∧ tasks s' = tasks s.
Proof.
  intros Hnodup. unfold insert_user.
  destruct (decide (Exists _ (users s))); [done|].
  destruct (decide (Exists _ (users s))) as [|Hfresh]; [done|].
  intros [= <-]; simpl. split; [|done].
  rewrite fmap_app. apply NoDup_app. split; [done|]. split.
  - intros e [r [-> Hr]]%list_elem_of_fmap Hin.
    apply Hfresh, Exists_exists. exists r. split; [done|].
    apply list_elem_of_singleton in Hin. done.
  - apply NoDup_singleton.
Qed.

Lemma register_step_unique_emails (env : Env) (c : Call) (p : Progress) (s : Session) :
  NoDup (User.email <$> users s) →
  NoDup (User.email <$> users (register_step env c p s).2).
Proof.
  intros Hnodup. destruct p as [| |r]; simpl; [| |done].
  - by destruct (register_check _ s).
  - unfold register_commit.
    destruct (hash_password env _ _) as [h|]; simpl; [|done].
    destruct (insert_user _ s) as [s'|] eqn:Hins; simpl; [|done].
    by apply insert_user_unique_emails in Hins as [? _].
Qed.

Lemma run_unique_emails (env : Env) (a b : Call) (schedule : list Turn)
  (st : Progress * Progress * Session) :
  NoDup (User.email <$> users st.2) →
  NoDup (User.email <$> users (run env a b schedule st).2).
Proof.
  revert st. induction schedule as [|[|] rest IH]; intros st Hnodup; simpl; [done|..];
    apply IH; simpl; by apply register_step_unique_emails.
Qed.

(** C4 as it stands fails: when two registrations of one e-mail both
    pass their read-check before either commits, the uniqueness
    constraint stops the second row, but the second call ends in the
    store's [IntegrityError], not in the 409 [DuplicateEmail]. *)
Lemma duplicate_email_by_constraint_is_not_409 :
  run Demo.env Demo.call_a Demo.call_b [RunA; RunB; RunA; RunB] (AtCheck, AtCheck, Demo.db)
  = (Finished (Return (UserResponse.mk 3%N "c@x.com" 3000)),
     Finished (Raise (IntegrityError "ix_users_email")),
     (register_call Demo.env Demo.call_a Demo.db).2)
  ∧ Raise (A:=UserResponse.t) (IntegrityError "ix_users_email") ≠ Raise DuplicateEmail.
Proof. split; [vm_compute; reflexivity | discriminate]. Qed.

(** C4, amended. After a successful registration of an e-mail, every
    further registration of it, whatever the password, fails with the
    409 [DuplicateEmail] and leaves the database as it is; that outcome
    is the handler's read-check. The unique index on its own refuses the
    second row as well, with an [IntegrityError]: it refuses every row
    with that e-mail, and so the rest of the handler, run past the
    read-check, ends in that error once the password is hashed and in
    any case adds no user. Under every interleaving of two calls no two
    users come to share an e-mail. *)
Theorem second_registration_is_rejected
  (env : Env) (a b : Call) (s s1 : Session) (created : UserResponse.t) :
  RegisterRequest.email (call_request b) = RegisterRequest.email (call_request a) →
  register_call env a s = (Return created, s1) →
  (register_check (call_request b) s1 = Raise DuplicateEmail
   ∧ register_call env b s1 = (Raise DuplicateEmail, s1))
  ∧ ((∀ row, User.email row = RegisterRequest.email (call_request a) →
        ∃ c, insert_user row s1 = Raise (IntegrityError c))
     ∧ (∀ h, hash_password env (call_salt b) (RegisterRequest.password (call_request b))
             = Return h →
        ∃ c, register_commit env (call_id b) (call_now b) (call_updated b) (call_salt b)
               (call_request b) s1
             = (Raise (IntegrityError c), s1))
     ∧ ∃ e, register_commit env (call_id b) (call_now b) (call_updated b) (call_salt b)
              (call_request b) s1
            = (Raise e, s1))
  ∧ length (select_user_by_email (RegisterRequest.email (call_request a)) s1) = 1%nat
  ∧ (∀ schedule pa pb,
       NoDup (User.email <$> users s) →
       NoDup (User.email <$> users (run env a b schedule (pa, pb, s)).2)).
Proof.
  intros Hsame. unfold register_call, register.
  destruct (register_check (call_request a) s) eqn:Hcheck; [|done].
  unfold register_check in Hcheck.
  destruct (first (select_user_by_email _ s)) eqn:Hnone; [done|].
  unfold register_commit at 1.
  destruct (hash_password env (call_salt a) _) as [h|]; [|done].
  set (user := User.mk (call_id a) _ _ _ _).
  destruct (insert_user user s) as [s2|] eqn:Hins; [|done].
  intros [= <- <-]. unfold insert_user in Hins.
  destruct (decide (Exists _ (users s))); [done|].
  destruct (decide (Exists _ (users s))); [done|].
  injection Hins as <-.
  assert (select_user_by_email (RegisterRequest.email (call_request a)) s = []) as Hempty.
  { unfold first in Hnone. by destruct (select_user_by_email _ s). }
  assert (select_user_by_email (RegisterRequest.email (call_request a))
            (mkSession (users s ++ [user]) (tasks s)) = [user]) as Hone.
  { unfold select_user_by_email in *; simpl.
    rewrite filter_app, Hempty, filter_cons, decide_True; done. }
  assert (Exists (λ r, User.email r = RegisterRequest.email (call_request a))
            (users s ++ [user])) as Htaken.
  { apply Exists_app. right. by apply Exists_cons_hd. }
  assert (∀ row, User.email row = RegisterRequest.email (call_request a) →
            ∃ c, insert_user row (mkSession (users s ++ [user]) (tasks s))
                 = Raise (IntegrityError c)) as Hrefused.
  { intros row Hrow. unfold insert_user; cbn [users]. rewrite Hrow.
    destruct (decide (Exists _ (users s ++ [user]))); [by eexists|].
    rewrite decide_True by done. by eexists. }
  split; [|split; [|split]].
  - unfold register_check. rewrite Hsame, Hone. done.
  - split; [exact Hrefused|]. unfold register_commit. split.
    + intros hb ->; cbn zeta.
      destruct (Hrefused (User.mk (call_id b) (RegisterRequest.email (call_request b))
                            hb (call_now b) (call_updated b)) Hsame) as [c ->].
      by eexists.
    + destruct (hash_password env (call_salt b) _) as [hb|]; [|by eexists].
      destruct (Hrefused (User.mk (call_id b) (RegisterRequest.email (call_request b))
                            hb (call_now b) (call_updated b)) Hsame) as [c ->].
      by eexists.
  - by rewrite Hone.
  - intros schedule pa pb Hnodup. by apply run_unique_emails.
Qed.

Lemma second_registration_is_rejected_witness :
  register_call Demo.env Demo.call_b (register_call Demo.env Demo.call_a Demo.db).2
  = (Raise DuplicateEmail, (register_call Demo.env Demo.call_a Demo.db).2).
Proof.
  eapply (second_registration_is_rejected Demo.env Demo.call_a Demo.call_b Demo.db).
  - reflexivity.
  - vm_compute. reflexivity.
Defined.

(** ** Pagination *)

#[global] Instance created_at_desc_transitive : Transitive created_at_desc.
Proof. unfold created_at_desc. intros a b c. lia. Qed.

#[global] Instance created_at_desc_total : Total created_at_desc.
Proof. unfold created_at_desc. intros a b. lia. Qed.

(** A stable merge sort is one of the orders a database may give. *)
Lemma merge_sort_orders : order_by_created_at_desc Demo.order.
Proof.
  intros rows. unfold Demo.order. split.
  - apply merge_sort_Permutation.
  - apply StronglySorted_merge_sort; apply _.
Qed.

Section Pagination.
Variables (order : list Task.t → list Task.t).
Hypothesis order_ok : order_by_created_at_desc order.
Variables (user : UUID) (completed : option bool) (s : Session).





End Pagination.

(** Within the 64-bit range the page is fetched: the rows in the
    database's order, [offset] of them skipped and at most [limit] kept. *)
Lemma list_tasks_in_range (order : list Task.t → list Task.t) (user : UUID)
  (limit offset : Z) (completed : option bool) (s : Session) :
  (0 ≤ limit ≤ BIGINT_MAX)%Z → (0 ≤ offset ≤ BIGINT_MAX)%Z →
  list_tasks order user limit offset completed s
  = Return (TaskListResponse.mk
              (TaskResponse.model_validate
                 <$> take (Z.to_nat limit)
                       (drop (Z.to_nat offset) (order (list_statement user completed s))))
              (Z.of_nat (length (list_statement user completed s))) limit offset).
Proof.
  intros Hlimit Hoffset. unfold list_tasks, exec_page, in_bigint_range.
  destruct (Z.leb_spec 0 limit), (Z.leb_spec limit BIGINT_MAX),
    (Z.leb_spec 0 offset), (Z.leb_spec offset BIGINT_MAX); simpl; (done || lia).
Qed.




(** ** Partial update *)

(** What an update of an owned task does, for every validated request:
    the assignments are applied to the loaded row, the row is written
    and read back. *)
Lemma update_task_owned (s : Session) (task_id : UUID)
  (request : TaskUpdateRequest.t) (task : Task.t) :
  first (select_task_by_id task_id s) = Some task →
  let task' :=
    assign_completed (TaskUpdateRequest.completed request)
      (assign_description (TaskUpdateRequest.description request)
         (assign_title (TaskUpdateRequest.title request) task)) in
  update_task task_id request (Task.user_id task) s
  = (Return (TaskResponse.model_validate task'), update_task_row task' s)
  ∧ first (select_task_by_id task_id (update_task_row task' s)) = Some task'.
Proof.
  intros Hsel task'. unfold update_task. rewrite Hsel.
  rewrite decide_False by (intros Hne; by apply Hne).
  fold task'.
  destruct (select_Some_Exists _ _ _ Hsel) as [Hid Hex].
  destruct (assign_keeps_identity (TaskUpdateRequest.title request)
              (TaskUpdateRequest.description request)
              (TaskUpdateRequest.completed request) task) as (Hid' & _).
  fold task' in Hid'.
  assert (Exists (λ r, Task.id r = Task.id task') (tasks s)) as Hex'
    by (by rewrite Hid', Hid).
  destruct (refresh_after_update s task' Hex') as [Hsel' Hrefresh].
  rewrite Hrefresh. split; [done|]. by rewrite <- Hid, <- Hid'.
Qed.



(** ** A [null] description *)

Lemma put_task_description (s : Session) (task_id user : UUID)
  (body : TaskUpdateBody.t) (task : Task.t) :
  first (select_task_by_id task_id s) = Some task →
  ∃ task',
    first (select_task_by_id task_id (put_task task_id body user s).2) = Some task'
    ∧ (Task.description task' = Task.description task
       ∨ ∃ v, TaskUpdateBody.description body = Value v
              ∧ Task.description task' = Some v)
    ∧ (optional (TaskUpdateBody.description body) = None →
       Task.description task' = Task.description task).
Proof.
  intros Hsel. unfold put_task.
  destruct (TaskUpdateRequest.model_validate body) as [request|] eqn:Hvalid; simpl;
    [|exists task; auto].
  assert (TaskUpdateRequest.description request
          = optional (TaskUpdateBody.description body)) as Hd.
  { unfold TaskUpdateRequest.model_validate in Hvalid.
    destruct (TaskUpdateBody.title body); [..|destruct (length_between _ _ _)];
      by inversion Hvalid. }
  destruct (decide (Task.user_id task = user)) as [<-|Hforeign].
  - destruct (update_task_owned s task_id request task Hsel) as [-> Hstored].
    simpl in *. eexists. split; [exact Hstored|]. rewrite Hd.
    destruct (TaskUpdateBody.description body) as [| |v],
      (TaskUpdateRequest.title request), (TaskUpdateRequest.completed request);
      simpl; split; eauto; done.
  - unfold update_task. rewrite Hsel, decide_True by done. exists task; auto.
Qed.

(** C10. An update whose body gives [description] the value [null] is
    the update that leaves [description] out: same response, same
    database. So the stored description is left as it is, and no update
    of any body turns a stored description into [None]. *)
Theorem null_description_is_omission
  (s : Session) (task_id user : UUID) (body : TaskUpdateBody.t) :
  put_task task_id (with_description Null body) user s
  = put_task task_id (with_description Absent body) user s
  ∧ ∀ task d,
      first (select_task_by_id task_id s) = Some task →
      Task.description task = Some d →
      ∃ task',
        first (select_task_by_id task_id (put_task task_id body user s).2) = Some task'
        ∧ Task.description task' ≠ None
        ∧ (TaskUpdateBody.description body = Null → Task.description task' = Some d).
Proof.
  split.
  - unfold put_task, with_description, TaskUpdateRequest.model_validate; simpl. done.
  - intros task d Hsel Hd.
    destruct (put_task_description s task_id user body task Hsel)
      as (task' & Hstored & Hcases & Hnone).
    exists task'. split; [done|]. split.
    + destruct Hcases as [->|(v & _ & ->)]; [by rewrite Hd|done].
    + intros Hnull. rewrite <- Hd. apply Hnone. by rewrite Hnull.
Qed.

Lemma null_description_is_omission_witness :
  ∃ task',
    first (select_task_by_id 10%N
             (put_task 10%N (TaskUpdateBody.mk (Value "Buy oat milk") Null Absent)
                1%N Demo.db).2) = Some task'
    ∧ Task.description task' = Some "two litres".
Proof.
  destruct (null_description_is_omission Demo.db 10%N 1%N
              (TaskUpdateBody.mk (Value "Buy oat milk") Null Absent)) as [_ Hkept].
  destruct (Hkept Demo.milk "two litres" eq_refl eq_refl) as (task' & Hstored & _ & Hnull).
  exists task'. split; [exact Hstored | exact (Hnull eq_refl)].
Defined.

(** ** The [updated_at] column on update *)

(** C8 does not hold of [update_task]: the handler assigns [title],
    [description] and [completed] only, and nothing the code sets up
    refreshes the column, so the row stored by a successful update, and
    the response, carry the [updated_at] the row had before. *)
Theorem update_keeps_updated_at
  (s : Session) (task_id user : UUID) (body : TaskUpdateBody.t)
  (task : Task.t) (response : TaskResponse.t) (s' : Session) :
  first (select_task_by_id task_id s) = Some task →
  put_task task_id body user s = (Return response, s') →
  TaskResponse.updated_at response = Task.updated_at task
  ∧ ∃ task', first (select_task_by_id task_id s') = Some task'
             ∧ Task.updated_at task' = Task.updated_at task.
Proof.
  intros Hsel. unfold put_task.
  destruct (TaskUpdateRequest.model_validate body) as [request|]; [|done].
  destruct (decide (Task.user_id task = user)) as [<-|Hforeign].
  - destruct (update_task_owned s task_id request task Hsel) as [-> Hstored].
    simpl in *. intros [= <- <-].
    destruct (assign_keeps_identity (TaskUpdateRequest.title request)
                (TaskUpdateRequest.description request)
                (TaskUpdateRequest.completed request) task) as (_ & _ & _ & Hsame).
    simpl in Hsame. split; [exact Hsame|]. eexists. split; [exact Hstored|exact Hsame].
  - unfold update_task. rewrite Hsel, decide_True by done. done.
Qed.

Lemma update_keeps_updated_at_witness :
  ∃ response s',
    put_task 10%N (TaskUpdateBody.mk Absent Absent (Value true)) 1%N Demo.db
    = (Return response, s')
    ∧ TaskResponse.completed response = true
    ∧ TaskResponse.updated_at response = 2000%Z.
Proof.
  eexists _, _. split; [vm_compute; reflexivity|]. split; [reflexivity|].
  eapply (update_keeps_updated_at Demo.db 10%N 1%N
            (TaskUpdateBody.mk Absent Absent (Value true)) Demo.milk).
  - reflexivity.
  - vm_compute. reflexivity.
Defined.

(** ** Password verification *)

(** C7 does not hold of [verify_password]: it hands the call to the
    hash context and has no handler around it, and neither has [login].
    With a context that behaves as passlib's does, a string with no
    bcrypt ident makes [verify_password] raise [UnknownHashError], a
    string with an ident that is not a well-formed bcrypt hash makes it
    raise a [ValueError], and so does a plaintext with a NUL character
    against a hash that [hash_password] made; in none of these cases is
    [False] returned. *)
Theorem verify_password_raises_on_malformed_hash :
  verify_password Demo.env "testpass123" "not-a-bcrypt-hash" = Raise UnknownHashError
  ∧ verify_password Demo.env "testpass123" "$2b$12$short"
    = Raise (ValueError "malformed bcrypt hash")
  ∧ hash_password Demo.env Demo.salt_a "password123"
    = Return (User.password_hash Demo.alice)
  ∧ verify_password Demo.env Demo.nul_password (User.password_hash Demo.alice)
    = Raise (ValueError "bcrypt does not allow NULL bytes in password")
  ∧ verify_password Demo.env "password123" (User.password_hash Demo.alice) = Return true
  ∧ verify_password Demo.env "12" (User.password_hash Demo.alice) = Return false.
Proof. split_and!; vm_compute; reflexivity. Qed.

(** ** Token failures *)

(** C9. Provided the library's message for an expired token mentions
    "expired", its message for a failed signature mentions "signature"
    and not "expired", and its message for a malformed token mentions
    neither: a token signed with the secret whose [exp] has passed is
    refused with 401 "Token expired"; a token signed with another key
    with 401 "Invalid token signature"; a malformed token with 401
    "Invalid token"; a valid token whose subject is no UUID with 401
    "Invalid token format (malformed user ID)". The first detail
    contains "expired", the second "signature", and the first two
    differ from each other and from the other two. *)
Theorem token_failures_are_distinguished (env : Env) (now : datetime) :
  contains "expired" (lower (msg_expired (jose env))) = true →
  contains "expired" (lower (msg_signature (jose env))) = false →
  contains "signature" (lower (msg_signature (jose env))) = true →
  (∀ text, contains "expired" (lower (msg_malformed (jose env) text)) = false) →
  (∀ text, contains "signature" (lower (msg_malformed (jose env) text)) = false) →
  (∀ claims, (exp claims < now)%Z →
     get_current_user env now (JWS claims (SECRET_KEY env))
     = Raise (unauthorized "Token expired"))
  ∧ (∀ claims key, key ≠ SECRET_KEY env →
       get_current_user env now (JWS claims key)
       = Raise (unauthorized "Invalid token signature"))
  ∧ (∀ text,
       get_current_user env now (Unparsable text) = Raise (unauthorized "Invalid token"))
  ∧ (∀ claims user_id_str,
       (now ≤ exp claims)%Z → sub claims = Some user_id_str →
       UUID_parse env user_id_str = None →
       get_current_user env now (JWS claims (SECRET_KEY env))
       = Raise (unauthorized "Invalid token format (malformed user ID)"))
  ∧ contains "expired" "Token expired" = true
  ∧ contains "signature" "Invalid token signature" = true
  ∧ "Token expired" ≠ "Invalid token signature"
  ∧ "Token expired" ≠ "Invalid token"
  ∧ "Token expired" ≠ "Invalid token format (malformed user ID)"
  ∧ "Invalid token signature" ≠ "Invalid token"
  ∧ "Invalid token signature" ≠ "Invalid token format (malformed user ID)".
Proof.
  intros Hexp Hsig_exp Hsig Hmal_exp Hmal_sig.
  split_and!; try done.
  - intros claims Hpast. unfold get_current_user, jwt_decode.
    rewrite decide_True by done.
    destruct (Z.ltb_spec (exp claims) now); [|lia].
    unfold on_JWTError. by rewrite Hexp.
  - intros claims key Hkey. unfold get_current_user, jwt_decode.
    rewrite decide_False by done.
    unfold on_JWTError. by rewrite Hsig_exp, Hsig.
  - intros text. unfold get_current_user, jwt_decode, on_JWTError.
    by rewrite Hmal_exp, Hmal_sig.
  - intros claims user_id_str Hlive Hsub Hparse. unfold get_current_user, jwt_decode.
    rewrite decide_True by done.
    destruct (Z.ltb_spec (exp claims) now); [lia|].
    by rewrite Hsub, Hparse.
Qed.

Lemma token_failures_are_distinguished_witness :
  get_current_user Demo.env 90000 (Demo.token_for 3000 Demo.alice)
  = Raise (unauthorized "Token expired")
  ∧ get_current_user Demo.env 3000
      (JWS (mkClaims (Some "some-user-id") 6600 3000) "wrong-secret-key")
    = Raise (unauthorized "Invalid token signature").
Proof.
  destruct (token_failures_are_distinguished Demo.env 90000)
    as (Hexpired & _); [reflexivity || (intros; reflexivity)..|].
  destruct (token_failures_are_distinguished Demo.env 3000)
    as (_ & Hsignature & _); [reflexivity || (intros; reflexivity)..|].
  split.
  - apply Hexpired. vm_compute. reflexivity.
  - apply Hsignature. vm_compute. discriminate.
Defined.

(** * Further properties of the handlers *)

(** ** Selecting by a key *)

Section Keys.
Context {A K : Type} `{EqDecision K} (key : A → K).

Lemma filter_key_None (l : list A) (k : K) :
  ¬ Exists (λ r, key r = k) l → filter (λ r, key r = k) l = [].
Proof.
  intros Hnone. induction l as [|r l IH]; [done|].
  rewrite filter_cons. destruct (decide (key r = k)) as [Hr|Hr].
  - exfalso. apply Hnone. by apply Exists_cons_hd.
  - apply IH. intros Hex. apply Hnone. by apply Exists_cons_tl.
Qed.

(** A row appended under a fresh key is what its key selects. *)
Lemma first_filter_appended (l : list A) (x : A) :
  ¬ Exists (λ r, key r = key x) l →
  first (filter (λ r, key r = key x) (l ++ [x])) = Some x.
Proof.
  intros Hfresh. rewrite filter_app, (filter_key_None l (key x) Hfresh).
  rewrite filter_cons, decide_True; done.
Qed.

Lemma key_determines_row (l : list A) (x y : A) :
  NoDup (key <$> l) → x ∈ l → y ∈ l → key x = key y → x = y.
Proof.
  induction l as [|r l IH]; [by intros _ ?%elem_of_nil|].
  rewrite fmap_cons, NoDup_cons. intros [Hr Hl] Hx Hy Hxy.
  apply elem_of_cons in Hx as [->|Hx]; apply elem_of_cons in Hy as [->|Hy].
  - done.
  - exfalso. apply Hr. rewrite Hxy. by apply list_elem_of_fmap_2.
  - exfalso. apply Hr. rewrite <- Hxy. by apply list_elem_of_fmap_2.
  - by apply IH.
Qed.

(** Under a unique key, selecting by the key of a row of the table
    finds that row. *)
Lemma first_filter_key (l : list A) (x : A) :
  NoDup (key <$> l) → x ∈ l → first (filter (λ r, key r = key x) l) = Some x.
Proof.
  intros Hnodup Hx.
  assert (Exists (λ r, key r = key x) l) as Hex by (apply Exists_exists; eauto).
  destruct (first_filter_Exists _ _ Hex) as [y Hy]. rewrite Hy. f_equal.
  apply first_filter_Some in Hy as [Hin Hkey].
  by apply (key_determines_row l).
Qed.

End Keys.

(** ** The validity window of an issued token *)

(** X1. A token issued by [create_access_token] for a user resolves to
    that user at every time up to 24 hours after it was issued, and is
    refused as expired at every later time. *)
Theorem issued_token_validity_window
  (env : Env) (issued now : datetime) (user_id : UUID) :
  UUID_parse env (UUID_str env user_id) = Some user_id →
  contains "expired" (lower (msg_expired (jose env))) = true →
  ((now ≤ issued + 86400)%Z →
     get_current_user env now (create_access_token env issued user_id) = Return user_id)
  ∧ ((issued + 86400 < now)%Z →
       get_current_user env now (create_access_token env issued user_id)
       = Raise (unauthorized "Token expired")).
Proof.
  intros Hround Hexpired.
  unfold get_current_user, create_access_token, jwt_encode, jwt_decode,
    ACCESS_TOKEN_EXPIRE_HOURS; cbn [exp sub].
  rewrite decide_True by done.
  split; intros Hnow; destruct (Z.ltb_spec (issued + 24 * 3600) now); try lia.
  - cbn [sub]. by rewrite Hround.
  - unfold on_JWTError. by rewrite Hexpired.
Qed.

Lemma issued_token_validity_window_witness :
  get_current_user Demo.env 89400 (Demo.token_for 3000 Demo.alice) = Return 1%N
  ∧ get_current_user Demo.env 89401 (Demo.token_for 3000 Demo.alice)
    = Raise (unauthorized "Token expired").
Proof.
  destruct (issued_token_validity_window Demo.env 3000 89400 1%N) as [Hvalid _];
    [reflexivity | reflexivity |].
  destruct (issued_token_validity_window Demo.env 3000 89401 1%N) as [_ Hlate];
    [reflexivity | reflexivity |].
  split; [apply Hvalid | apply Hlate]; lia.
Defined.

(** ** The outcomes of a registration *)

(** X2. A registration has exactly four outcomes. If a user has the
    e-mail: 409 and no change. Otherwise, if the hash context refuses
    the password: its error and no change. Otherwise, if the new id is
    taken: the primary key's [IntegrityError] and no change. Otherwise
    one user is appended, with the request's e-mail, the hash of its
    password, [created_at] at the first reading of the clock and
    [updated_at] at the second, and the response is that user without
    the hash and without [updated_at]. *)
Theorem register_outcomes
  (env : Env) (new_id : UUID) (created updated : datetime) (salt : string)
  (request : RegisterRequest.t) (s : Session) :
  let taken := Exists (λ u, User.email u = RegisterRequest.email request) (users s) in
  let clash := Exists (λ u, User.id u = new_id) (users s) in
  let hashed := hash_password env salt (RegisterRequest.password request) in
  (taken → register env new_id created updated salt request s = (Raise DuplicateEmail, s))
  ∧ (¬ taken → ∀ e, hashed = Raise e →
     register env new_id created updated salt request s = (Raise e, s))
  ∧ (¬ taken → ∀ h, hashed = Return h → clash →
     register env new_id created updated salt request s
     = (Raise (IntegrityError "users_pkey"), s))
  ∧ (¬ taken → ∀ h, hashed = Return h → ¬ clash →
     register env new_id created updated salt request s
     = (Return (UserResponse.mk new_id (RegisterRequest.email request) created),
        mkSession
          (users s ++ [User.mk new_id (RegisterRequest.email request) h created updated])
          (tasks s))).
Proof.
  intros taken clash hashed. unfold register, register_check.
  split_and!.
  - intros Htaken.
    destruct (first_filter_Exists _ _ Htaken) as [u Hu].
    unfold select_user_by_email. by rewrite Hu.
  - intros Hfree e He. unfold select_user_by_email.
    rewrite (filter_key_None User.email _ _ Hfree); simpl.
    unfold register_commit. fold hashed. by rewrite He.
  - intros Hfree h Hh Hclash. unfold select_user_by_email.
    rewrite (filter_key_None User.email _ _ Hfree); simpl.
    unfold register_commit. fold hashed. rewrite Hh.
    unfold insert_user; simpl. by rewrite decide_True.
  - intros Hfree h Hh Hfresh. unfold select_user_by_email.
    rewrite (filter_key_None User.email _ _ Hfree); simpl.
    unfold register_commit. fold hashed. rewrite Hh.
    unfold insert_user; simpl.
    rewrite decide_False by done. by rewrite decide_False.
Qed.

Lemma register_outcomes_witness :
  register Demo.env 1%N 3000 3001 Demo.salt_c (RegisterRequest.mk "c@x.com" "password-one")
    Demo.db
  = (Raise (IntegrityError "users_pkey"), Demo.db)
  ∧ register Demo.env 3%N 3000 3001 Demo.salt_c
      (RegisterRequest.mk "c@x.com" Demo.nul_password) Demo.db
    = (Raise (ValueError "bcrypt does not allow NULL bytes in password"), Demo.db).
Proof.
  assert (¬ Exists (λ u, User.email u = "c@x.com") (users Demo.db)) as Hfree.
  { intros Htaken. repeat (apply Exists_cons in Htaken as [Htaken|Htaken]; [discriminate|]).
    by apply Exists_nil in Htaken. }
  split.
  - destruct (register_outcomes Demo.env 1%N 3000 3001 Demo.salt_c
                (RegisterRequest.mk "c@x.com" "password-one") Demo.db)
      as (_ & _ & Hclash & _).
    eapply Hclash; [exact Hfree | vm_compute; reflexivity | by apply Exists_cons_hd].
  - destruct (register_outcomes Demo.env 3%N 3000 3001 Demo.salt_c
                (RegisterRequest.mk "c@x.com" Demo.nul_password) Demo.db)
      as (_ & Hrefused & _).
    apply Hrefused; [exact Hfree | vm_compute; reflexivity].
Defined.

(** ** Register, then log in *)

Lemma register_success (env : Env) (new_id : UUID) (created updated : datetime)
  (salt : string) (request : RegisterRequest.t) (s s1 : Session)
  (response : UserResponse.t) :
  register env new_id created updated salt request s = (Return response, s1) →
  ∃ h,
    hash_password env salt (RegisterRequest.password request) = Return h
    ∧ ¬ Exists (λ u, User.email u = RegisterRequest.email request) (users s)
    ∧ ¬ Exists (λ u, User.id u = new_id) (users s)
    ∧ response = UserResponse.mk new_id (RegisterRequest.email request) created
    ∧ s1 = mkSession
             (users s ++ [User.mk new_id (RegisterRequest.email request) h created updated])
             (tasks s).
Proof.
  unfold register, register_check, register_commit.
  destruct (first (select_user_by_email _ s)) as [|] eqn:Hsel; [done|].
  destruct (hash_password env salt _) as [h|]; [|done].
  unfold insert_user; cbn [User.id User.email].
  destruct (decide (Exists (λ r, User.id r = new_id) (users s))); [done|].
  destruct (decide (Exists _ (users s))) as [|Hfree]; [done|].
  intros [= <- <-]. by exists h.
Qed.

(** X3. Provided the hash context verifies a password against its own
    hash of it, a login with the e-mail and password of a registration
    that succeeded is answered with a bearer token for the new user and
    the very profile the registration returned. *)
Theorem register_then_login
  (env : Env) (new_id : UUID) (created updated later : datetime) (salt : string)
  (request : RegisterRequest.t) (s s1 : Session) (response : UserResponse.t) :
  (∀ h, ctx_hash (pwd_context env) salt (RegisterRequest.password request) = Return h →
        ctx_verify (pwd_context env) (RegisterRequest.password request) h = Return true) →
  register env new_id created updated salt request s = (Return response, s1) →
  login env later
    (LoginRequest.mk (RegisterRequest.email request) (RegisterRequest.password request)) s1
  = Return (AuthResponse.mk (create_access_token env later new_id) "bearer" response).
Proof.
  intros Hverify Hreg.
  destruct (register_success _ _ _ _ _ _ _ _ _ Hreg) as (h & Hh & Hfree & _ & -> & ->).
  pose proof (first_filter_appended User.email (users s)
                (User.mk new_id (RegisterRequest.email request) h created updated))
    as Hsel.
  cbn [User.email] in Hsel.
  unfold login, select_user_by_email; cbn [users LoginRequest.email LoginRequest.password].
  rewrite Hsel by done. cbn [User.password_hash User.id].
  unfold verify_password. by rewrite (Hverify h Hh).
Qed.

Lemma register_then_login_witness :
  ∃ response,
    login Demo.env 4000 (LoginRequest.mk "c@x.com" "password-one")
      (register_call Demo.env Demo.call_a Demo.db).2 = Return response
    ∧ AuthResponse.user response = UserResponse.mk 3%N "c@x.com" 3000.
Proof.
  eexists. split; [|shelve].
  eapply (register_then_login Demo.env 3%N 3000 3001 4000 Demo.salt_c
            (RegisterRequest.mk "c@x.com" "password-one") Demo.db).
  - intros h [= <-]. vm_compute. reflexivity.
  - vm_compute. reflexivity.
  Unshelve. reflexivity.
Defined.

(** ** Log in, then fetch the profile *)

Lemma issued_token_accepted (env : Env) (issued now : datetime) (user_id : UUID) :
  UUID_parse env (UUID_str env user_id) = Some user_id →
  (now ≤ issued + 86400)%Z →
  get_current_user env now (create_access_token env issued user_id) = Return user_id.
Proof.
  intros Hround Hnow.
  unfold get_current_user, create_access_token, jwt_encode, jwt_decode,
    ACCESS_TOKEN_EXPIRE_HOURS; cbn [exp sub].
  rewrite decide_True by done.
  destruct (Z.ltb_spec (issued + 24 * 3600) now); [lia|].
  cbn [sub]. by rewrite Hround.
Qed.

Lemma login_success (env : Env) (now : datetime) (request : LoginRequest.t)
  (s : Session) (response : AuthResponse.t) :
  login env now request s = Return response →
  ∃ user, user ∈ users s
          ∧ User.email user = LoginRequest.email request
          ∧ verify_password env (LoginRequest.password request) (User.password_hash user)
            = Return true
          ∧ response = AuthResponse.mk (create_access_token env now (User.id user))
                         "bearer" (UserResponse.model_validate user).
Proof.
  unfold login.
  destruct (first (select_user_by_email _ s)) as [user|] eqn:Hsel; [|done].
  apply first_filter_Some in Hsel as [Hin Hemail].
  destruct (verify_password env _ _) as [[|]|] eqn:Hverify; [|done..].
  intros [= <-]. by exists user.
Qed.

(** X4. While the primary key of [users] holds and [str]/[UUID] round
    trip on the ids in the table, the token a successful login returns resolves, at any time in
    the next 24 hours, to the id of the user in the login response, and
    the profile endpoint answers that id with the same user. *)
Theorem login_then_me
  (env : Env) (now later : datetime) (request : LoginRequest.t)
  (s : Session) (response : AuthResponse.t) :
  NoDup (User.id <$> users s) →
  Forall (λ u, UUID_parse env (UUID_str env (User.id u)) = Some (User.id u)) (users s) →
  (later ≤ now + 86400)%Z →
  login env now request s = Return response →
  get_current_user env later (AuthResponse.access_token response)
  = Return (UserResponse.id (AuthResponse.user response))
  ∧ get_me (UserResponse.id (AuthResponse.user response)) s
    = Return (AuthResponse.user response).
Proof.
  intros Hkey Hround Hlater (user & Hin & _ & _ & ->)%login_success.
  cbn [AuthResponse.access_token AuthResponse.user].
  unfold UserResponse.model_validate at 1 3; cbn [UserResponse.id].
  rewrite Forall_forall in Hround.
  split; [apply issued_token_accepted; auto|].
  unfold get_me, select_user_by_id.
  by rewrite (first_filter_key User.id (users s) user).
Qed.

Lemma login_then_me_witness :
  ∃ response,
    login Demo.env 3000 (LoginRequest.mk "b@x.com" "testpass456") Demo.db = Return response
    ∧ get_me (UserResponse.id (AuthResponse.user response)) Demo.db
      = Return (UserResponse.mk 2%N "b@x.com" 1001).
Proof.
  eexists. split; [vm_compute; reflexivity|].
  eapply (login_then_me Demo.env 3000 3000
            (LoginRequest.mk "b@x.com" "testpass456") Demo.db).
  - refine (bool_decide_unpack _ _). vm_compute. exact I.
  - repeat constructor.
  - lia.
  - vm_compute. reflexivity.
Defined.

(** ** Create, then get *)

Lemma insert_task_success (x : Task.t) (s s' : Session) :
  insert_task x s = Return s' →
  ¬ Exists (λ r, Task.id r = Task.id x) (tasks s)
  ∧ Exists (λ u, User.id u = Task.user_id x) (users s)
  ∧ s' = mkSession (users s) (tasks s ++ [x]).
Proof.
  unfold insert_task.
  destruct (decide (Exists _ (tasks s))); [done|].
  destruct (decide (Exists _ (users s))); [|done].
  by intros [= <-].
Qed.

(** X5. When [create_task] succeeds, the response has the id drawn for
    the task, the request's title, description and completed flag, the
    caller as owner, [created_at] at the first reading of the clock and
    [updated_at] at the second; and [get_task] of that id by the same
    user returns the same response. *)
Theorem create_then_get
  (request : TaskCreateRequest.t) (user new_id : UUID) (created updated : datetime)
  (s s' : Session) (response : TaskResponse.t) :
  create_task request user new_id created updated s = (Return response, s') →
  response
  = TaskResponse.mk new_id (TaskCreateRequest.title request)
      (TaskCreateRequest.description request) (TaskCreateRequest.completed request)
      user created updated
  ∧ get_task new_id user s' = Return response.
Proof.
  unfold create_task.
  destruct (insert_task _ s) as [s1|] eqn:Hins; [|done].
  destruct (refresh_after_insert _ _ _ Hins) as [_ Hrefresh].
  apply insert_task_success in Hins as (Hfresh & _ & ->).
  rewrite Hrefresh. intros [= <- <-]. split; [done|].
  unfold get_task, select_task_by_id; cbn [tasks].
  pose proof (first_filter_appended Task.id (tasks s)
                (Task.mk new_id (TaskCreateRequest.title request)
                   (TaskCreateRequest.description request)
                   (TaskCreateRequest.completed request) user created updated) Hfresh)
    as Hsel.
  cbn [Task.id] in Hsel. rewrite Hsel; cbn [Task.user_id].
  by rewrite decide_False by (intros Hne; by apply Hne).
Qed.

Lemma create_then_get_witness :
  ∃ response s',
    create_task (TaskCreateRequest.mk "Call mum" None false) 2%N 20%N 3000 3001 Demo.db
    = (Return response, s')
    ∧ get_task 20%N 2%N s' = Return response
    ∧ TaskResponse.created_at response = 3000%Z
    ∧ TaskResponse.updated_at response = 3001%Z.
Proof.
  eexists _, _. split; [vm_compute; reflexivity|]. split; [|by split].
  eapply (create_then_get (TaskCreateRequest.mk "Call mum" None false) 2%N 20%N 3000 3001
            Demo.db).
  vm_compute. reflexivity.
Defined.

(** ** Delete, then get *)

Lemma select_after_delete (rows : list Task.t) (x : Task.t) (task_id : UUID) :
  filter (λ r, Task.id r = task_id) (filter (λ r, Task.id r ≠ Task.id x) rows)
  = if decide (task_id = Task.id x) then [] else filter (λ r, Task.id r = task_id) rows.
Proof.
  induction rows as [|r rows IH]; [by destruct (decide _)|].
  rewrite (filter_cons (λ r, Task.id r ≠ Task.id x)), (filter_cons _ r rows).
  destruct (decide (Task.id r ≠ Task.id x)) as [Hr|Hr].
  - rewrite filter_cons, IH.
    destruct (decide (task_id = Task.id x)) as [->|Hne]; [by rewrite decide_False|done].
  - rewrite IH. apply dec_stable in Hr.
    destruct (decide (task_id = Task.id x)) as [->|Hne]; [done|].
    by rewrite decide_False by congruence.
Qed.

(** X6. After a successful [delete_task] the id answers 404 to every
    user, every other id answers to every user as it did before, and
    the users table is as it was. *)
Theorem delete_then_get (task_id user : UUID) (s s' : Session) :
  delete_task task_id user s = (Return tt, s') →
  (∀ anyone, get_task task_id anyone s' = Raise TaskNotFound)
  ∧ (∀ other anyone, other ≠ task_id →
       get_task other anyone s' = get_task other anyone s)
  ∧ users s' = users s.
Proof.
  unfold delete_task.
  destruct (first (select_task_by_id task_id s)) as [task|] eqn:Hsel; [|done].
  destruct (decide (Task.user_id task ≠ user)); [done|].
  intros [= <-].
  apply select_Some_Exists in Hsel as [Hid _].
  split; [|split; [|done]].
  - intros anyone. unfold get_task, select_task_by_id, delete_task_row; cbn [tasks].
    rewrite select_after_delete, decide_True; done.
  - intros other anyone Hother.
    unfold get_task, select_task_by_id, delete_task_row; cbn [tasks].
    rewrite select_after_delete, decide_False; [done|congruence].
Qed.

Lemma delete_then_get_witness :
  get_task 10%N 1%N (delete_task 10%N 1%N Demo.db).2 = Raise TaskNotFound
  ∧ get_task 11%N 1%N (delete_task 10%N 1%N Demo.db).2 = get_task 11%N 1%N Demo.db.
Proof.
  destruct (delete_then_get 10%N 1%N Demo.db (delete_task 10%N 1%N Demo.db).2)
    as (Hgone & Hkept & _); [reflexivity|].
  split; [apply Hgone | apply Hkept; discriminate].
Defined.

(** ** Updating twice *)

Lemma assign_twice vt vd vc (x : Task.t) :
  let assign := λ y, assign_completed vc (assign_description vd (assign_title vt y)) in
  assign (assign x) = assign x.
Proof. by destruct vt, vd, vc. Qed.

Lemma update_task_row_twice (x : Task.t) (s : Session) :
  update_task_row x (update_task_row x s) = update_task_row x s.
Proof.
  unfold update_task_row; cbn [users tasks]. f_equal.
  rewrite <- list_fmap_compose. apply list_fmap_ext. intros _ r _; simpl.
  destruct (decide (Task.id r = Task.id x)); [by rewrite decide_True|by rewrite decide_False].
Qed.

(** X7. [PUT /api/tasks/{task_id}] is idempotent: the same request sent
    again, on the database the first one left, gets the same response
    and leaves the same database. *)
Theorem put_task_is_idempotent
  (task_id user : UUID) (body : TaskUpdateBody.t) (s : Session) :
  put_task task_id body user (put_task task_id body user s).2
  = put_task task_id body user s.
Proof.
  unfold put_task.
  destruct (TaskUpdateRequest.model_validate body) as [request|]; [|done].
  destruct (first (select_task_by_id task_id s)) as [task|] eqn:Hsel.
  - destruct (decide (Task.user_id task = user)) as [<-|Hforeign].
    + destruct (update_task_owned s task_id request task Hsel) as [Hfirst Hstored].
      cbn zeta in Hfirst, Hstored. rewrite Hfirst; cbn [snd].
      destruct (assign_keeps_identity (TaskUpdateRequest.title request)
                  (TaskUpdateRequest.description request)
                  (TaskUpdateRequest.completed request) task) as (_ & Howner & _).
      cbn zeta in Howner. rewrite <- Howner.
      destruct (update_task_owned _ task_id request _ Hstored) as [Hsecond _].
      cbn zeta in Hsecond. rewrite Hsecond.
      pose proof (assign_twice (TaskUpdateRequest.title request)
                    (TaskUpdateRequest.description request)
                    (TaskUpdateRequest.completed request) task) as Hsame.
      cbn zeta beta in Hsame. rewrite Hsame. by rewrite update_task_row_twice.
    + unfold update_task. rewrite Hsel, decide_True by done. cbn [snd].
      by rewrite Hsel, decide_True.
  - unfold update_task. rewrite Hsel. cbn [snd]. by rewrite Hsel.
Qed.

(** ** One user's requests and another user's tasks *)

Section Isolation.
Context {A : Type} (P : A → Prop) `{∀ a, Decision (P a)}.

Lemma filter_fmap_outside (f : A → A) (l : list A) :
  (∀ r, r ∈ l → f r = r ∨ (¬ P r ∧ ¬ P (f r))) →
  filter P (f <$> l) = filter P l.
Proof.
  induction l as [|r l IH]; [done|]. intros Hf.
  rewrite fmap_cons, !filter_cons, IH
    by (intros r' Hr'; apply Hf; apply elem_of_cons; by right).
  destruct (Hf r) as [->|[Hr Hfr]]; [apply elem_of_cons; by left|done|].
  by rewrite !decide_False.
Qed.

Lemma filter_filter_outside (Q : A → Prop) `{∀ a, Decision (Q a)} (l : list A) :
  (∀ r, r ∈ l → ¬ Q r → ¬ P r) → filter P (filter Q l) = filter P l.
Proof.
  induction l as [|r l IH]; [done|]. intros HQ.
  rewrite (filter_cons Q), (filter_cons P r l).
  assert (filter P (filter Q l) = filter P l) as IH'
    by (apply IH; intros r' Hr'; apply HQ; apply elem_of_cons; by right).
  destruct (decide (Q r)) as [Hr|Hr].
  - by rewrite filter_cons, IH'.
  - rewrite IH'. rewrite decide_False; [done|].
    apply HQ; [apply elem_of_cons; by left|done].
Qed.

End Isolation.

(** The rows of [owner] are the same in [s'] as in [s]. *)
Definition same_rows_of (owner : UUID) (s s' : Session) : Prop :=
  filter (λ x, Task.user_id x = owner) (tasks s')
  = filter (λ x, Task.user_id x = owner) (tasks s).

Lemma update_keeps_rows_of (s : Session) (task_id a b : UUID)
  (request : TaskUpdateRequest.t) :
  a ≠ b → NoDup (Task.id <$> tasks s) →
  same_rows_of b s (update_task task_id request a s).2.
Proof.
  intros Hab Hkey. unfold update_task, same_rows_of.
  destruct (first (select_task_by_id task_id s)) as [task|] eqn:Hsel; [|done].
  destruct (decide (Task.user_id task ≠ a)) as [|Hown]; [done|].
  apply dec_stable in Hown. cbn [snd].
  set (task' := assign_completed _ _).
  destruct (assign_keeps_identity (TaskUpdateRequest.title request)
              (TaskUpdateRequest.description request)
              (TaskUpdateRequest.completed request) task) as (Hid & Howner & _).
  cbn zeta in Hid, Howner. fold task' in Hid, Howner.
  apply first_filter_Some in Hsel as [Hin _].
  unfold update_task_row; cbn [tasks].
  apply filter_fmap_outside. intros r Hr.
  destruct (decide (Task.id r = Task.id task')) as [Hsame|]; [right|by left].
  rewrite Hid in Hsame.
  rewrite (key_determines_row Task.id (tasks s) r task Hkey Hr Hin Hsame).
  split; congruence.
Qed.

Lemma delete_keeps_rows_of (s : Session) (task_id a b : UUID) :
  a ≠ b → NoDup (Task.id <$> tasks s) →
  same_rows_of b s (delete_task task_id a s).2.
Proof.
  intros Hab Hkey. unfold delete_task, same_rows_of.
  destruct (first (select_task_by_id task_id s)) as [task|] eqn:Hsel; [|done].
  destruct (decide (Task.user_id task ≠ a)) as [|Hown]; [done|].
  apply dec_stable in Hown. cbn [snd].
  apply first_filter_Some in Hsel as [Hin _].
  unfold delete_task_row; cbn [tasks].
  apply filter_filter_outside. intros r Hr Hsame. apply dec_stable in Hsame.
  rewrite (key_determines_row Task.id (tasks s) r task Hkey Hr Hin Hsame).
  congruence.
Qed.

Lemma create_keeps_rows_of (s : Session) (a b new_id : UUID) (created updated : datetime)
  (request : TaskCreateRequest.t) :
  a ≠ b → same_rows_of b s (create_task request a new_id created updated s).2.
Proof.
  intros Hab. unfold create_task, same_rows_of.
  destruct (insert_task _ s) as [s1|] eqn:Hins; [|done].
  apply insert_task_success in Hins as (_ & _ & ->). cbn [snd tasks].
  rewrite filter_app, filter_cons, decide_False, filter_nil by (cbn; congruence).
  by rewrite app_nil_r.
Qed.

Lemma same_rows_same_list (order : list Task.t → list Task.t) (b : UUID)
  (s s' : Session) (limit offset : option Z) (completed : option bool) :
  same_rows_of b s s' →
  get_tasks order b limit offset completed s' = get_tasks order b limit offset completed s.
Proof.
  intros Hsame. unfold get_tasks, list_tasks, list_statement.
  unfold same_rows_of in Hsame. by rewrite Hsame.
Qed.

(** X8. While task ids are unique, no update, delete or create request
    of user [a] changes what another user [b] gets from the list
    endpoint, for any limit, offset and filter. *)
Theorem other_users_list_is_untouched
  (order : list Task.t → list Task.t)
  (s : Session) (a b : UUID) (task_id new_id : UUID) (created updated : datetime)
  (body : TaskUpdateBody.t) (request : TaskCreateRequest.t)
  (limit offset : option Z) (completed : option bool) :
  a ≠ b → NoDup (Task.id <$> tasks s) →
  get_tasks order b limit offset completed (put_task task_id body a s).2
  = get_tasks order b limit offset completed s
  ∧ get_tasks order b limit offset completed (delete_task task_id a s).2
    = get_tasks order b limit offset completed s
  ∧ get_tasks order b limit offset completed
      (create_task request a new_id created updated s).2
    = get_tasks order b limit offset completed s.
Proof.
  intros Hab Hkey. split; [|split]; apply same_rows_same_list.
  - unfold put_task.
    destruct (TaskUpdateRequest.model_validate body); [|done].
    by apply update_keeps_rows_of.
  - by apply delete_keeps_rows_of.
  - by apply create_keeps_rows_of.
Qed.

Lemma other_users_list_is_untouched_witness :
  get_tasks Demo.order 2%N None None None (delete_task 10%N 1%N Demo.db).2
  = get_tasks Demo.order 2%N None None None Demo.db.
Proof.
  eapply (other_users_list_is_untouched Demo.order Demo.db 1%N 2%N 10%N 20%N 3000 3001
            (TaskUpdateBody.mk Absent Absent Absent)
            (TaskCreateRequest.mk "Call mum" None false) None None None).
  - discriminate.
  - refine (bool_decide_unpack _ _). vm_compute. exact I.
Defined.

(** ** The [completed] filter *)

(** X9. The requests with [completed=true] and with [completed=false]
    split the user's tasks: no task is in both statements, together
    they are the statement without a filter, and their totals add up to
    the total without a filter, whatever the pages asked for and in
    whatever order the database gives the rows. *)
Theorem completed_filter_partitions
  (order1 order2 order3 : list Task.t → list Task.t)
  (user : UUID) (s : Session) (l1 o1 l2 o2 l3 o3 : Z) :
  list_statement user (Some true) s ++ list_statement user (Some false) s
  ≡ₚ list_statement user None s
  ∧ (∀ x, x ∈ list_statement user (Some true) s → x ∉ list_statement user (Some false) s)
  ∧ (∀ done pending all,
       list_tasks order1 user l1 o1 (Some true) s = Return done →
       list_tasks order2 user l2 o2 (Some false) s = Return pending →
       list_tasks order3 user l3 o3 None s = Return all →
       (TaskListResponse.total done + TaskListResponse.total pending
        = TaskListResponse.total all)%Z).
Proof.
  assert (list_statement user (Some true) s ++ list_statement user (Some false) s
          ≡ₚ list_statement user None s) as Hperm.
  { unfold list_statement.
    rewrite (list_filter_iff (λ x, Task.completed x = false)
               (λ x, Task.completed x ≠ true))
      by (intros x; by destruct (Task.completed x)).
    apply filter_app_complement. }
  split; [done|]. split.
  - unfold list_statement. intros x [Ht _]%list_elem_of_filter [Hf _]%list_elem_of_filter.
    congruence.
  - intros r1 r2 r3. unfold list_tasks.
    destruct (exec_page order1 _ l1 o1); [|done].
    destruct (exec_page order2 _ l2 o2); [|done].
    destruct (exec_page order3 _ l3 o3); [|done].
    intros [= <-] [= <-] [= <-]. cbn [TaskListResponse.total].
    apply Permutation_length in Hperm. rewrite length_app in Hperm.
    unfold list_statement in Hperm. lia.
Qed.

Lemma completed_filter_partitions_witness :
  ∃ done pending all,
    list_tasks Demo.order 1%N 1 0 (Some true) Demo.db = Return done
    ∧ list_tasks Demo.order 1%N 5 1 (Some false) Demo.db = Return pending
    ∧ list_tasks Demo.order 1%N 10 0 None Demo.db = Return all
    ∧ (TaskListResponse.total done + TaskListResponse.total pending
       = TaskListResponse.total all)%Z.
Proof.
  eexists _, _, _. split_and!; [vm_compute; reflexivity..|].
  destruct (completed_filter_partitions Demo.order Demo.order Demo.order 1%N Demo.db
              1 0 5 1 10 0) as (_ & _ & Htotals).
  apply Htotals; vm_compute; reflexivity.
Defined.

(** ** Consecutive pages *)

(** Where no two rows were created at the same time, there is one way
    only to put them newest first: any two orders the database may give
    agree. *)
Lemma order_is_unique (order1 order2 : list Task.t → list Task.t) (rows : list Task.t) :
  order_by_created_at_desc order1 → order_by_created_at_desc order2 →
  NoDup (Task.created_at <$> rows) →
  order1 rows = order2 rows.
Proof.
  intros H1 H2 Hdistinct.
  destruct (H1 rows) as [Hperm1 Hsorted1], (H2 rows) as [Hperm2 Hsorted2].
  apply (StronglySorted_unique_strong created_at_desc); [|done..|by rewrite Hperm1, Hperm2].
  intros x1 x2 Hx1 Hx2 Hle Hge. unfold created_at_desc in Hle, Hge.
  rewrite Hperm1 in Hx1. rewrite Hperm2 in Hx2.
  apply (key_determines_row Task.created_at rows); [done..|lia].
Qed.

(** X10. Where no two of the tasks a list request is about were created
    at the same time, pages tile the list, whichever order the database
    gives on each of the three requests: the page of [limit1] tasks at
    [offset] followed by the page of [limit2] tasks at
    [offset + limit1] is the page of [limit1 + limit2] tasks at
    [offset], as long as the numbers stay within the 64-bit range. *)
Theorem consecutive_pages_compose
  (order1 order2 order3 : list Task.t → list Task.t)
  (user : UUID) (completed : option bool) (s : Session) (limit1 limit2 offset : Z) :
  order_by_created_at_desc order1 →
  order_by_created_at_desc order2 →
  order_by_created_at_desc order3 →
  NoDup (Task.created_at <$> list_statement user completed s) →
  (0 ≤ limit1)%Z → (0 ≤ limit2)%Z → (0 ≤ offset)%Z →
  (offset + limit1 + limit2 < 2 ^ 63)%Z →
  ∃ first_page second_page both,
    list_tasks order1 user limit1 offset completed s = Return first_page
    ∧ list_tasks order2 user limit2 (offset + limit1) completed s = Return second_page
    ∧ list_tasks order3 user (limit1 + limit2) offset completed s = Return both
    ∧ TaskListResponse.tasks first_page ++ TaskListResponse.tasks second_page
      = TaskListResponse.tasks both.
Proof.
  intros Ho1 Ho2 Ho3 Hdistinct H1 H2 Ho Hrange.
  eexists _, _, _.
  split; [apply list_tasks_in_range; unfold BIGINT_MAX; lia|].
  split; [apply list_tasks_in_range; unfold BIGINT_MAX; lia|].
  split; [apply list_tasks_in_range; unfold BIGINT_MAX; lia|].
  cbn [TaskListResponse.tasks].
  rewrite (order_is_unique order1 order3 _ Ho1 Ho3 Hdistinct).
  rewrite (order_is_unique order2 order3 _ Ho2 Ho3 Hdistinct).
  rewrite <- fmap_app. f_equal.
  rewrite !Z2Nat.inj_add by done.
  rewrite <- drop_drop. apply take_take_drop.
Qed.

Lemma consecutive_pages_compose_witness :
  ∃ first_page second_page both,
    list_tasks Demo.order 1%N 1 0 None Demo.db = Return first_page
    ∧ list_tasks Demo.order 1%N 2 1 None Demo.db = Return second_page
    ∧ list_tasks Demo.order 1%N 3 0 None Demo.db = Return both
    ∧ TaskListResponse.tasks first_page ++ TaskListResponse.tasks second_page
      = TaskListResponse.tasks both.
Proof.
  apply (consecutive_pages_compose Demo.order Demo.order Demo.order 1%N None Demo.db 1 2 0);
    try apply merge_sort_orders; try lia.
  refine (bool_decide_unpack _ _). vm_compute. exact I.
Defined.

(** ** Requests that fail *)

(** X11. A registration, a task creation, an update or a delete that
    ends in an error, whichever it is (401, 403, 404, 409, 422, an error
    of the hash context or an integrity error), leaves the database
    exactly as it was. *)
Theorem failed_requests_change_nothing (env : Env) (s s' : Session) (e : exn) :
  (∀ new_id created updated salt request,
     register env new_id created updated salt request s = (Raise e, s') → s' = s)
  ∧ (∀ now new_id created updated credentials body,
       post_task env now new_id created updated credentials body s = (Raise e, s') →
       s' = s)
  ∧ (∀ task_id body user, put_task task_id body user s = (Raise e, s') → s' = s)
  ∧ (∀ task_id user, delete_task task_id user s = (Raise e, s') → s' = s).
Proof.
  split_and!.
  - intros new_id created updated salt request. unfold register, register_commit.
    destruct (register_check request s); [|by intros [= _ <-]].
    destruct (hash_password env salt _); [|by intros [= _ <-]].
    destruct (insert_user _ s); [done|by intros [= _ <-]].
  - intros now new_id created updated credentials body. unfold post_task, create_task.
    destruct (get_current_user env now credentials); [|by intros [= _ <-]].
    destruct (TaskCreateRequest.model_validate body); [|by intros [= _ <-]].
    destruct (insert_task _ s); [done|by intros [= _ <-]].
  - intros task_id body user. unfold put_task, update_task.
    destruct (TaskUpdateRequest.model_validate body); [|by intros [= _ <-]].
    destruct (first (select_task_by_id task_id s)); [|by intros [= _ <-]].
    destruct (decide _); [by intros [= _ <-]|done].
  - intros task_id user. unfold delete_task.
    destruct (first (select_task_by_id task_id s)); [|by intros [= _ <-]].
    destruct (decide _); [by intros [= _ <-]|done].
Qed.

(** ** The schema's constraints are kept *)

Section Constraints.

Lemma NoDup_key_appended {A K : Type} (key : A → K) (l : list A) (x : A) :
  NoDup (key <$> l) → ¬ Exists (λ r, key r = key x) l → NoDup (key <$> (l ++ [x])).
Proof.
  intros Hnodup Hfresh. rewrite fmap_app. apply NoDup_app.
  split; [done|]. split; [|apply NoDup_singleton].
  intros k [r [-> Hr]]%list_elem_of_fmap Hk.
  apply list_elem_of_singleton in Hk.
  apply Hfresh, Exists_exists. eauto.
Qed.

Lemma NoDup_key_filter {A K : Type} (key : A → K) (P : A → Prop)
  `{∀ a, Decision (P a)} (l : list A) :
  NoDup (key <$> l) → NoDup (key <$> filter P l).
Proof.
  intros Hnodup. eapply sublist_NoDup; [exact Hnodup|].
  apply fmap_sublist, sublist_filter.
Qed.

Lemma register_keeps_constraints (env : Env) (new_id : UUID) (created updated : datetime)
  (salt : string) (request : RegisterRequest.t) (s : Session) :
  constraints s → constraints (register env new_id created updated salt request s).2.
Proof.
  intros (Hid & Hemail & Htask & Hfk).
  destruct (register env new_id created updated salt request s) as [[response|e] s1]
    eqn:Hreg; cbn [snd].
  - apply register_success in Hreg as (h & _ & Hfree & Hfresh & _ & ->).
    split_and!; cbn [users tasks].
    + by apply NoDup_key_appended.
    + by apply NoDup_key_appended.
    + done.
    + eapply Forall_impl; [exact Hfk|]. intros x Hx. apply Exists_app. by left.
  - unfold register, register_commit in Hreg.
    destruct (register_check request s); [|by injection Hreg as _ <-].
    destruct (hash_password env salt _); [|by injection Hreg as _ <-].
    destruct (insert_user _ s); [done|by injection Hreg as _ <-].
Qed.

Lemma create_keeps_constraints (request : TaskCreateRequest.t) (user new_id : UUID)
  (created updated : datetime) (s : Session) :
  constraints s → constraints (create_task request user new_id created updated s).2.
Proof.
  intros (Hid & Hemail & Htask & Hfk). unfold create_task.
  destruct (insert_task _ s) as [s1|] eqn:Hins; cbn [snd]; [|done].
  apply insert_task_success in Hins as (Hfresh & Howner & ->).
  split_and!; cbn [users tasks]; [done..| |].
  - by apply NoDup_key_appended.
  - apply Forall_app. split; [done|]. by apply Forall_singleton.
Qed.

Lemma update_keeps_constraints (task_id user : UUID) (request : TaskUpdateRequest.t)
  (s : Session) :
  constraints s → constraints (update_task task_id request user s).2.
Proof.
  intros (Hid & Hemail & Htask & Hfk). unfold update_task.
  destruct (first (select_task_by_id task_id s)) as [task|] eqn:Hsel; [|done].
  destruct (decide (Task.user_id task ≠ user)); [done|]. cbn [snd].
  set (task' := assign_completed _ _).
  destruct (assign_keeps_identity (TaskUpdateRequest.title request)
              (TaskUpdateRequest.description request)
              (TaskUpdateRequest.completed request) task) as (Hsame & Howner & _).
  cbn zeta in Hsame, Howner. fold task' in Hsame, Howner.
  apply first_filter_Some in Hsel as [Hin _].
  rewrite Forall_forall in Hfk.
  split_and!; unfold update_task_row; cbn [users tasks]; [done..| |].
  - rewrite <- list_fmap_compose.
    rewrite (list_fmap_ext _ Task.id (tasks s)); [done|].
    intros _ r _; simpl. by destruct (decide (Task.id r = Task.id task')).
  - apply Forall_fmap, Forall_forall. intros r Hr; simpl.
    destruct (decide (Task.id r = Task.id task')); [|by apply Hfk].
    rewrite Howner. by apply Hfk.
Qed.

Lemma delete_keeps_constraints (task_id user : UUID) (s : Session) :
  constraints s → constraints (delete_task task_id user s).2.
Proof.
  intros (Hid & Hemail & Htask & Hfk). unfold delete_task.
  destruct (first (select_task_by_id task_id s)) as [task|]; [|done].
  destruct (decide (Task.user_id task ≠ user)); [done|]. cbn [snd].
  split_and!; unfold delete_task_row; cbn [users tasks]; [done..| |].
  - by apply NoDup_key_filter.
  - rewrite Forall_forall in Hfk. apply Forall_forall.
    intros r [_ Hr]%list_elem_of_filter. by apply Hfk.
Qed.

End Constraints.

(** X12. Primary keys, the unique e-mail and the foreign key of a task
    to its owner are invariants of the API: from a database that meets
    them, every registration, task creation, update and delete, with
    any arguments and whether it succeeds or fails, leads to a database
    that meets them. *)
Theorem handlers_keep_constraints (env : Env) (s : Session) :
  constraints s →
  (∀ new_id created updated salt request,
     constraints (register env new_id created updated salt request s).2)
  ∧ (∀ now new_id created updated credentials body,
       constraints (post_task env now new_id created updated credentials body s).2)
  ∧ (∀ task_id body user, constraints (put_task task_id body user s).2)
  ∧ (∀ task_id user, constraints (delete_task task_id user s).2).
Proof.
  intros Hs. split_and!.
  - intros. by apply register_keeps_constraints.
  - intros now new_id created updated credentials body. unfold post_task.
    destruct (get_current_user env now credentials); [|done].
    destruct (TaskCreateRequest.model_validate body); [|done].
    by apply create_keeps_constraints.
  - intros task_id body user. unfold put_task.
    destruct (TaskUpdateRequest.model_validate body); [|done].
    by apply update_keeps_constraints.
  - intros. by apply delete_keeps_constraints.
Qed.

Lemma handlers_keep_constraints_witness :
  constraints Demo.db
  ∧ constraints (register_call Demo.env Demo.call_a Demo.db).2
  ∧ constraints (delete_task 10%N 1%N Demo.db).2.
Proof.
  assert (constraints Demo.db) as Hdb.
  { split_and!; try (refine (bool_decide_unpack _ _); vm_compute; exact I). }
  destruct (handlers_keep_constraints Demo.env Demo.db Hdb) as (Hreg & _ & _ & Hdel).
  split; [exact Hdb|]. split; [apply Hreg | apply Hdel].
Defined.

Lemma failed_requests_change_nothing_witness :
  (delete_task 12%N 1%N Demo.db).2 = Demo.db
  ∧ (put_task 10%N (TaskUpdateBody.mk (Value "") Absent Absent) 1%N Demo.db).2 = Demo.db.
Proof.
  destruct (failed_requests_change_nothing Demo.env Demo.db
              (delete_task 12%N 1%N Demo.db).2 TaskForbidden) as (_ & _ & _ & Hdel).
  destruct (failed_requests_change_nothing Demo.env Demo.db
              (put_task 10%N (TaskUpdateBody.mk (Value "") Absent Absent) 1%N Demo.db).2
              (RequestValidationError "title")) as (_ & _ & Hput & _).
  split.
  - apply (Hdel 12%N 1%N). reflexivity.
  - apply (Hput 10%N (TaskUpdateBody.mk (Value "") Absent Absent) 1%N). reflexivity.
Defined.

(** ** Register, then fetch the profile *)

(** X16. When a registration succeeds, the profile endpoint answered
    the new id with 404 before it and answers it with the registered
    user after it. *)
Theorem register_then_me
  (env : Env) (new_id : UUID) (now updated : datetime) (salt : string)
  (request : RegisterRequest.t) (s s1 : Session) (created : UserResponse.t) :
  register env new_id now updated salt request s = (Return created, s1) →
  get_me new_id s = Raise UserNotFound
  ∧ get_me new_id s1 = Return created
  ∧ created = UserResponse.mk new_id (RegisterRequest.email request) now.
Proof.
  intros Hreg.
  destruct (register_success _ _ _ _ _ _ _ _ _ Hreg) as (h & _ & _ & Hfresh & -> & ->).
  unfold get_me, select_user_by_id; cbn [users]. split_and!.
  - by rewrite (filter_key_None User.id _ _ Hfresh).
  - pose proof (first_filter_appended User.id (users s)
                  (User.mk new_id (RegisterRequest.email request) h now updated))
      as Hsel.
    cbn [User.id] in Hsel. by rewrite Hsel.
  - done.
Qed.

Lemma register_then_me_witness :
  get_me 3%N Demo.db = Raise UserNotFound
  ∧ get_me 3%N (register_call Demo.env Demo.call_a Demo.db).2
    = Return (UserResponse.mk 3%N "c@x.com" 3000).
Proof.
  destruct (register_then_me Demo.env 3%N 3000 3001 Demo.salt_c
              (RegisterRequest.mk "c@x.com" "password-one") Demo.db
              (register_call Demo.env Demo.call_a Demo.db).2
              (UserResponse.mk 3%N "c@x.com" 3000)) as (Hbefore & Hafter & _);
    [vm_compute; reflexivity|].
  split; [exact Hbefore | exact Hafter].
Defined.

(** ** An update and the other tasks *)

(** X17. An update of task [task_id], whatever its body and outcome,
    leaves every task with another id as it was: [get_task] of such an
    id answers every user as before, and the users table is unchanged. *)
Theorem put_task_leaves_other_tasks
  (task_id user : UUID) (body : TaskUpdateBody.t) (s : Session) :
  users (put_task task_id body user s).2 = users s
  ∧ ∀ other anyone, other ≠ task_id →
      get_task other anyone (put_task task_id body user s).2 = get_task other anyone s.
Proof.
  unfold put_task.
  destruct (TaskUpdateRequest.model_validate body) as [request|]; [|done].
  unfold update_task.
  destruct (first (select_task_by_id task_id s)) as [task|] eqn:Hsel; [|done].
  destruct (decide (Task.user_id task ≠ user)); [done|]. cbn [snd].
  set (task' := assign_completed _ _).
  destruct (assign_keeps_identity (TaskUpdateRequest.title request)
              (TaskUpdateRequest.description request)
              (TaskUpdateRequest.completed request) task) as (Hid & _).
  cbn zeta in Hid. fold task' in Hid.
  apply select_Some_Exists in Hsel as [Htask _].
  split; [done|]. intros other anyone Hother.
  unfold get_task, select_task_by_id, update_task_row; cbn [tasks].
  rewrite (filter_fmap_outside (λ x, Task.id x = other)); [done|].
  intros r _. destruct (decide (Task.id r = Task.id task')) as [Hr|]; [right|by left].
  split; congruence.
Qed.

Lemma put_task_leaves_other_tasks_witness :
  get_task 11%N 1%N
    (put_task 10%N (TaskUpdateBody.mk (Value "Buy oat milk") Absent (Value true))
       1%N Demo.db).2
  = get_task 11%N 1%N Demo.db.
Proof.
  destruct (put_task_leaves_other_tasks 10%N 1%N
              (TaskUpdateBody.mk (Value "Buy oat milk") Absent (Value true)) Demo.db)
    as [_ Hother].
  apply Hother. discriminate.
Defined.

(** * Properties of [DatabaseService] *)

Section Service.
Import DatabaseService.
Implicit Types (rows : list Task) (x task : Task).

Lemma service_set_fields now vt vd vs vp vdd x :
  let x' :=
    set_updated_at now
      (set_due_date vdd (set_priority vp (set_status now vs
         (set_description vd (set_title vt x))))) in
  id x' = id x ∧ user_id x' = user_id x ∧ created_at x' = created_at x
  ∧ updated_at x' = now
  ∧ status x' = default (status x) vs
  ∧ completed_at x'
    = match vs with
      | Some completed =>
          match completed_at x with Some t => Some t | None => Some now end
      | Some _ => None
      | None => completed_at x
      end.
Proof.
  destruct vt, vd, vp, vdd; cbn;
    destruct vs as [[| |]|]; cbn; destruct (completed_at x); done.
Qed.

Lemma service_read_back rows x task_id user :
  Exists (λ r, id r = id x) rows →
  id x = task_id → user_id x = user →
  get_task_by_id (write_row x rows) task_id user = Some x.
Proof.
  intros Hex Hid Howner. unfold get_task_by_id, write_row.
  induction Hex as [r rows Hr | r rows _ IH]; rewrite fmap_cons, filter_cons.
  - rewrite (decide_True (P := id r = id x)) by done. by rewrite decide_True.
  - destruct (decide (id r = id x)) as [Hr|Hr]; [by rewrite decide_True|].
    rewrite decide_False; [done|]. intros [Hr' _]. congruence.
Qed.

(** X13. [DatabaseService] selects by id and owner together, so a task
    of another user is treated as a task that does not exist: when no
    row has both the id and the caller as owner, [get_task_by_id] gives
    [None], [update_task] gives [None] and [delete_task] gives [False],
    and the table is left as it is. *)
Theorem service_foreign_task_is_missing
  (now : datetime) (rows : list Task) (task_id user : UUID)
  (vt vd : option string) (vs : option TaskStatus) (vp : option TaskPriority)
  (vdd : option datetime) :
  Forall (λ x, ¬ (id x = task_id ∧ user_id x = user)) rows →
  get_task_by_id rows task_id user = None
  ∧ update_task now rows task_id user vt vd vs vp vdd = (None, rows)
  ∧ delete_task rows task_id user = (false, rows).
Proof.
  intros Hnone.
  assert (get_task_by_id rows task_id user = None) as Hget
    by (by apply first_filter_None).
  unfold update_task, delete_task. by rewrite Hget.
Qed.

Lemma service_foreign_task_is_missing_witness :
  update_task 7000 DemoService.rows 32%N 1%N (Some "mine now") None None None None
  = (None, DemoService.rows)
  ∧ delete_task DemoService.rows 32%N 1%N = (false, DemoService.rows).
Proof.
  eapply (service_foreign_task_is_missing 7000 DemoService.rows 32%N 1%N).
  repeat constructor; vm_compute; intros [? ?]; discriminate.
Defined.

(** X14. A successful [DatabaseService.update_task] stamps the row:
    the returned task has [updated_at] at the clock, whatever fields
    were given, keeps its [id], [user_id] and [created_at], and is the
    row a following [get_task_by_id] of the same id and owner reads. *)
Theorem service_update_stamps_updated_at
  (now : datetime) (rows : list Task) (task_id user : UUID)
  (vt vd : option string) (vs : option TaskStatus) (vp : option TaskPriority)
  (vdd : option datetime) (task : Task) :
  get_task_by_id rows task_id user = Some task →
  ∃ task' rows',
    update_task now rows task_id user vt vd vs vp vdd = (Some task', rows')
    ∧ updated_at task' = now
    ∧ id task' = id task ∧ user_id task' = user_id task
    ∧ created_at task' = created_at task
    ∧ get_task_by_id rows' task_id user = Some task'.
Proof.
  intros Hget. unfold update_task. rewrite Hget.
  destruct (service_set_fields now vt vd vs vp vdd task)
    as (Hid & Howner & Hcreated & Hupdated & _).
  cbn zeta in *. eexists _, _. split; [done|]. split_and!; try done.
  unfold get_task_by_id in Hget.
  apply first_filter_Some in Hget as [Hin [Htask Huser]].
  apply service_read_back; [|congruence..].
  apply Exists_exists. exists task. split; [done|]. by rewrite Hid.
Qed.

Lemma service_update_stamps_updated_at_witness :
  ∃ task' rows',
    update_task 7000 DemoService.rows 30%N 1%N None None None (Some high) None
    = (Some task', rows')
    ∧ updated_at task' = 7000%Z.
Proof.
  destruct (service_update_stamps_updated_at 7000 DemoService.rows 30%N 1%N
              None None None (Some high) None DemoService.laundry)
    as (task' & rows' & Hupdate & Hstamp & _); [reflexivity|].
  exists task', rows'. split; [exact Hupdate | exact Hstamp].
Defined.

(** X15. [update_task] keeps the completion time in step with the
    status. A status of [completed] sets the completion time to the
    clock when the task had none and keeps the time it had otherwise;
    any other status clears it; no status leaves it alone. So after an
    update that gives a status, and after any update of a row that was
    in step, the row has a completion time exactly when it is
    [completed]. *)
Theorem service_update_tracks_completion
  (now : datetime) (rows : list Task) (task_id user : UUID)
  (vt vd : option string) (vs : option TaskStatus) (vp : option TaskPriority)
  (vdd : option datetime) (task : Task) :
  get_task_by_id rows task_id user = Some task →
  ∃ task' rows',
    update_task now rows task_id user vt vd vs vp vdd = (Some task', rows')
    ∧ (vs = Some completed → completed_at task = None → completed_at task' = Some now)
    ∧ (vs = Some completed → ∀ t, completed_at task = Some t → completed_at task' = Some t)
    ∧ (∀ st, vs = Some st → st ≠ completed → completed_at task' = None)
    ∧ (vs = None → completed_at task' = completed_at task ∧ status task' = status task)
    ∧ (is_Some vs ∨ completion_recorded task → completion_recorded task').
Proof.
  intros Hget. unfold update_task. rewrite Hget.
  destruct (service_set_fields now vt vd vs vp vdd task)
    as (_ & _ & _ & _ & Hstatus & Hcompleted).
  cbn zeta in *. eexists _, _. split; [done|].
  rewrite Hcompleted. unfold completion_recorded. rewrite Hstatus, Hcompleted.
  split_and!.
  - by intros -> ->.
  - by intros -> t ->.
  - intros st -> Hst. by destruct st.
  - by intros ->.
  - intros [[st ->]|Hrec]; simpl.
    + destruct st, (completed_at task); split; (done || by intros [? [=]] || eauto).
    + destruct vs as [st|]; [|done]; simpl.
      destruct st, (completed_at task); split; (done || by intros [? [=]] || eauto).
Qed.

Lemma service_update_tracks_completion_witness :
  ∃ task' rows',
    update_task 7000 DemoService.rows 30%N 1%N None None (Some completed) None None
    = (Some task', rows')
    ∧ completed_at task' = Some 7000%Z.
Proof.
  destruct (service_update_tracks_completion 7000 DemoService.rows 30%N 1%N
              None None (Some completed) None None DemoService.laundry)
    as (task' & rows' & Hupdate & Hset & _); [reflexivity|].
  exists task', rows'. split; [exact Hupdate | exact (Hset eq_refl eq_refl)].
Defined.

End Service.
